(** * Blogicum: the query and authorization layer of [blog/]

    A shallow embedding of [blog/querysets.py], [blog/managers.py] and
    [blog/views.py].  The persistent store is an explicit value of type
    [DB] that every request handler receives and returns; a handler is a
    function from a request and a store to a new store and a response.
    The parts of Django the handlers call (the paginator, the login
    decorators and mixins, [get_object_or_404]) are written out next to
    the handlers that use them. *)

From stdpp Require Import gmap strings list fin_maps.
From Stdlib Require Import ZArith Ascii Sorted.

Local Open Scope Z_scope.

(** ** Data model

    [blog/models.py] is not part of the sources at hand: the records
    follow the attributes the views and querysets read and write. *)

Module Models.

(** Modelled from the spec: [models.py] is missing.  A user identity;
    [is_superuser] is read by [OnlyAuthorMixin.test_func]. *)
Record User := mkUser {
  user_id : nat;
  username : string;
  is_superuser : bool
}.

(** Modelled from the spec: [models.py] is missing.  A category with
    its slug and publication flag. *)
Record Category := mkCategory {
  category_id : nat;
  slug : string;
  category_is_published : bool
}.

(** Modelled from the spec: [models.py] is missing.  [author] and
    [category] are foreign keys, kept as the referenced primary key;
    times are seconds on the clock that [now()] reads. *)
Record Post := mkPost {
  post_id : nat;
  title : string;
  text : string;
  pub_date : Z;
  is_published : bool;
  author : nat;
  category : nat;
  location : option nat;
  created_at : Z
}.

(** Modelled from the spec: [models.py] is missing.  A comment
    references one post and one author. *)
Record Comment := mkComment {
  comment_id : nat;
  comment_text : string;
  comment_post : nat;
  comment_author : nat;
  comment_created_at : Z
}.

(** The relational store: one table per model. *)
Record DB := mkDB {
  users : list User;
  categories : list Category;
  posts : list Post;
  comments : list Comment
}.

(** Dereference of the [category] foreign key. *)
Definition get_category (db : DB) (cid : nat) : option Category :=
  List.find (fun c => Nat.eqb (category_id c) cid) (categories db).

(** The reverse relation [post.comments]. *)
Definition post_comments (db : DB) (p : Post) : list Comment :=
  List.filter (fun c => Nat.eqb (comment_post c) (post_id p)) (comments db).

(** The primary key the store gives to the next inserted row: a key no
    stored row has.  (The store's own sequence also never hands out the
    key of a deleted row again; only freshness among the stored rows is
    modelled.) *)
Definition next_id (ids : list nat) : nat := S (foldr Nat.max 0%nat ids).

End Models.

Import Models.

(** ** [blog/querysets.py]: [PostQuerySet]

    A queryset is the list of rows it evaluates to.  The join over
    [category] needs the store; [now()] is the reading of the clock. *)

Module PostQuerySet.

Definition category_published (db : DB) (self : list Post) : list Post :=
  List.filter
    (fun p => match get_category db (category p) with
              | Some c => category_is_published c
              | None => false
              end) self.

Definition published (self : list Post) : list Post :=
  List.filter (fun p => is_published p) self.

Definition published_up_to_now (now : Z) (self : list Post) : list Post :=
  List.filter (fun p => pub_date p <=? now) self.

Definition available (db : DB) (now : Z) (self : list Post) : list Post :=
  published_up_to_now now (published (category_published db self)).

(** [annotate(comment_count=Count('comments'))]: the rows of the left
    outer join of the posts with the comment table ... *)
Definition left_join (ps : list Post) (cs : list Comment)
  : list (Post * option Comment) :=
  flat_map
    (fun p =>
       match List.filter (fun c => Nat.eqb (comment_post c) (post_id p)) cs with
       | [] => [(p, None)]
       | m => List.map (fun c => (p, Some c)) m
       end) ps.

(** ... grouped by the post's primary key, counting the rows whose
    comment side is not NULL. *)
Definition count_group (rows : list (Post * option Comment)) (pk : nat) : nat :=
  List.length
    (List.filter
       (fun r => Nat.eqb (post_id (fst r)) pk
                 && match snd r with Some _ => true | None => false end)
       rows).

Definition with_comment_count (db : DB) (self : list Post)
  : list (Post * nat) :=
  let rows := left_join self (comments db) in
  List.map (fun p => (p, count_group rows (post_id p))) self.

End PostQuerySet.

(** ** [blog/managers.py]: [PostManager] *)

Module PostManager.

Definition get_queryset (db : DB) : list Post := posts db.

Definition category_published (db : DB) : list Post :=
  PostQuerySet.category_published db (get_queryset db).

Definition published (db : DB) : list Post :=
  PostQuerySet.published (get_queryset db).

Definition published_up_to_now (db : DB) (now : Z) : list Post :=
  PostQuerySet.published_up_to_now now (get_queryset db).

Definition available (db : DB) (now : Z) : list Post :=
  PostQuerySet.available db now (get_queryset db).

Definition with_comment_count (db : DB) : list (Post * nat) :=
  PostQuerySet.with_comment_count db (get_queryset db).

End PostManager.

(** ** The values the framework hands to the views *)

Module Python.

(** The value [request.GET.get('page')] yields: [None] or a string;
    [Paginator.page] passes an integer on. *)
Inductive PyVal :=
| PyNone
| PyStr (s : string)
| PyInt (z : Z).

(** Characters [str.strip] and [int] treat as white space (ASCII). *)
Definition is_space (a : ascii) : bool :=
  let n := nat_of_ascii a in
  (Nat.leb 9 n && Nat.leb n 13) || (Nat.leb 28 n && Nat.leb n 32).

Definition digit_val (a : ascii) : option Z :=
  let n := nat_of_ascii a in
  if Nat.leb 48 n && Nat.leb n 57 then Some (Z.of_nat n - 48) else None.

Fixpoint lstrip (s : list ascii) : list ascii :=
  match s with
  | c :: s' => if is_space c then lstrip s' else s
  | [] => []
  end.

Definition strip (s : list ascii) : list ascii :=
  rev (lstrip (rev (lstrip s))).

(** The digits of a decimal literal: single underscores are allowed
    between digits only. *)
Fixpoint parse_digits (acc : Z) (after_digit : bool) (s : list ascii)
  : option Z :=
  match s with
  | [] => if after_digit then Some acc else None
  | c :: s' =>
      match digit_val c with
      | Some d => parse_digits (10 * acc + d) true s'
      | None =>
          if Ascii.eqb c "_"%char
          then (if after_digit then parse_digits acc false s' else None)
          else None
      end
  end.

(** [int(s)] on a string, base ten: [None] stands for [ValueError].
    (An interpreter that caps the number of digits of a literal raises
    [ValueError] for longer ones; the cap is configurable and is left
    out.) *)
Definition int_of_str (s : string) : option Z :=
  match strip (String.list_ascii_of_string s) with
  | c :: s' =>
      if Ascii.eqb c "-"%char then Z.opp <$> parse_digits 0 false s'
      else if Ascii.eqb c "+"%char then parse_digits 0 false s'
      else parse_digits 0 false (c :: s')
  | [] => None
  end.

(** [int(v)]: [None] stands for [TypeError] or [ValueError]. *)
Definition int (v : PyVal) : option Z :=
  match v with
  | PyNone => None
  | PyStr s => int_of_str s
  | PyInt z => Some z
  end.

(** [dict.get(key)] on a query dictionary. *)
Definition get (d : gmap string string) (key : string) : PyVal :=
  match d !! key with
  | Some s => PyStr s
  | None => PyNone
  end.

(** [seq[bottom:top]] for non-negative bounds. *)
Definition slice {A} (l : list A) (bottom top : Z) : list A :=
  firstn (Z.to_nat (top - bottom)) (skipn (Z.to_nat bottom) l).

End Python.

(** ** [django.core.paginator]

    [paginate_queryset] is a two-line wrapper over the framework's
    [Paginator]; its methods are written out here as the framework
    defines them, exceptions as the left summand. *)

Module Paginator.

Inductive InvalidPage := PageNotAnInteger | EmptyPage.

Record Paginator (A : Type) := mkPaginator {
  object_list : list A;
  per_page : Z;
  orphans : Z;
  allow_empty_first_page : bool
}.
Arguments mkPaginator {A}.
Arguments object_list {A}.
Arguments per_page {A}.
Arguments orphans {A}.
Arguments allow_empty_first_page {A}.

(** [Paginator(object_list, per_page)] with the defaults
    [orphans=0, allow_empty_first_page=True]. *)
Definition new {A} (object_list : list A) (per_page : Z) : Paginator A :=
  mkPaginator object_list per_page 0 true.

Record Page (A : Type) := mkPage {
  page_object_list : list A;
  number : Z;
  paginator : Paginator A
}.
Arguments mkPage {A}.
Arguments page_object_list {A}.
Arguments number {A}.
Arguments paginator {A}.

Definition count {A} (self : Paginator A) : Z :=
  Z.of_nat (List.length (object_list self)).

(** [ceil(hits / per_page)] *)
Definition num_pages {A} (self : Paginator A) : Z :=
  if (count self =? 0) && negb (allow_empty_first_page self) then 0
  else
    let hits := Z.max 1 (count self - orphans self) in
    - ((- hits) / per_page self).

(** [int(number)] failing raises [PageNotAnInteger]; a number below 1 or
    above [num_pages] raises [EmptyPage]. *)
Definition validate_number {A} (self : Paginator A) (number : Python.PyVal)
  : InvalidPage + Z :=
  match Python.int number with
  | None => inl PageNotAnInteger
  | Some n =>
      if n <? 1 then inl EmptyPage
      else if n >? num_pages self then inl EmptyPage
      else inr n
  end.

Definition page {A} (self : Paginator A) (number : Python.PyVal)
  : InvalidPage + Page A :=
  match validate_number self number with
  | inl e => inl e
  | inr n =>
      let bottom := (n - 1) * per_page self in
      let top := bottom + per_page self in
      let top := if top + orphans self >=? count self then count self else top in
      inr (mkPage (Python.slice (object_list self) bottom top) n self)
  end.

(** [get_page] catches both exceptions of [validate_number] and then
    calls [page], which validates once more. *)
Definition get_page {A} (self : Paginator A) (number : Python.PyVal)
  : InvalidPage + Page A :=
  let number :=
    match validate_number self number with
    | inr n => n
    | inl PageNotAnInteger => 1
    | inl EmptyPage => num_pages self
    end in
  page self (Python.PyInt number).

(** The page number [get_page] settles on before it calls [page]: the
    value of its local [number] after the [try] statement. *)
Definition settled_number {A} (self : Paginator A) (number : Python.PyVal)
  : Z :=
  match validate_number self number with
  | inr n => n
  | inl PageNotAnInteger => 1
  | inl EmptyPage => num_pages self
  end.

Definition has_next {A} (p : Page A) : bool :=
  number p <? num_pages (paginator p).

Definition has_previous {A} (p : Page A) : bool :=
  number p >? 1.

End Paginator.

(** ** Requests, responses and exceptions *)

Module Http.

(** The two methods the views tell apart; requests with any other
    method (PUT, DELETE, ...) are outside the model. *)
Inductive Method := GET | POST.

(** [request.user]: the anonymous user or a logged-in [User]. *)
Inductive RequestUser :=
| AnonymousUser
| LoggedIn (u : User).

Record Request := mkRequest {
  user : RequestUser;
  method : Method;
  query : gmap string string;
  body : gmap string string
}.

(** [request.GET] *)
Definition req_GET (r : Request) : gmap string string := query r.

(** [request.POST]: the submitted form of a POST request, empty
    otherwise. *)
Definition req_POST (r : Request) : gmap string string :=
  match method r with
  | POST => body r
  | GET => ∅
  end.

Definition is_authenticated (u : RequestUser) : bool :=
  match u with
  | AnonymousUser => false
  | LoggedIn _ => true
  end.

(** [request.user.is_superuser]; the anonymous user has the flag unset. *)
Definition user_is_superuser (u : RequestUser) : bool :=
  match u with
  | AnonymousUser => false
  | LoggedIn u => is_superuser u
  end.

(** [obj.author == request.user]: model instances are equal when their
    primary keys are; the anonymous user equals no stored user. *)
Definition author_eq (author_pk : nat) (u : RequestUser) : bool :=
  match u with
  | AnonymousUser => false
  | LoggedIn u => Nat.eqb author_pk (user_id u)
  end.

(** The named routes the views reverse. *)
Inductive Url :=
| url_index
| url_post_detail (post_id : nat)
| url_profile (username : string)
| url_login.

(** The exceptions a view can raise. *)
Inductive Exn :=
| Http404
| PermissionDenied
| ValueError
| InvalidPage (e : Paginator.InvalidPage).

#[global] Instance exn_ret : MRet (sum Exn) := fun _ x => inr x.
#[global] Instance exn_bind : MBind (sum Exn) := fun _ _ f m =>
  match m with
  | inl e => inl e
  | inr x => f x
  end.

End Http.

Import Http.

(** ** [blog/constants.py] and [blog/forms.py] *)

Module Forms.

(** Modelled from the spec: [constants.py] is missing; the page size is
    10 items. *)
Definition POSTS_PER_PAGE : Z := 10.

(** [str.strip()] *)
Definition str_strip (s : string) : string :=
  String.string_of_list_ascii (Python.strip (String.list_ascii_of_string s)).

(** A required text input: the field strips the submitted value, which
    must be present and not empty; the cleaned value is the stripped
    one. *)
Definition required (d : gmap string string) (key : string) : option string :=
  match d !! key with
  | Some s => if String.eqb (str_strip s) "" then None else Some (str_strip s)
  | None => None
  end.

Definition nat_field (d : gmap string string) (key : string) : option nat :=
  z ← required d key ≫= Python.int_of_str;
  if z <? 0 then None else Some (Z.to_nat z).

(** Modelled from the spec: [forms.py] is missing.  [CommentForm] is a
    form over [Comment] with the one required field [text]; [data] is
    [None] for an unbound form.  Validation is presence only. *)
Record CommentForm := mkCommentForm {
  comment_data : option (gmap string string);
  comment_instance : option Comment
}.

(** The fields annotated with an error when the form is rendered. *)
Definition comment_errors (f : CommentForm) : list string :=
  match comment_data f with
  | None => []
  | Some d =>
      match required d "text" with
      | Some _ => []
      | None => ["text"]
      end
  end.

Definition comment_is_valid (f : CommentForm) : bool :=
  match comment_data f with
  | None => false
  | Some d => bool_decide (comment_errors f = [])
  end.

(** [form.save(commit=False)] of a valid form: the instance with the
    cleaned text.  The instance is built from the submitted data and
    carries whatever [author] key the client sent; post, primary key and
    creation time are set when the row is saved. *)
Definition comment_save_commit_false (f : CommentForm) : Comment :=
  let d := default ∅ (comment_data f) in
  let text := default "" (required d "text") in
  match comment_instance f with
  | Some c =>
      mkComment (comment_id c) text (comment_post c) (comment_author c)
        (comment_created_at c)
  | None =>
      mkComment 0 text 0 (default 0%nat (nat_field d "author")) 0
  end.

(** Modelled from the spec: [forms.py] is missing.  [PostForm] is a form
    over [Post]: title, text, publish time and category are required,
    the category must exist, the location is optional and the
    publication flag is a check box.  (The store holds no location
    table: a submitted location is taken as it is, its existence is not
    checked.) *)
Record PostForm := mkPostForm {
  post_data : option (gmap string string);
  post_instance : option Post
}.

Definition post_field_ok (db : DB) (d : gmap string string) (key : string)
  : bool :=
  if String.eqb key "pub_date" then
    bool_decide (is_Some (required d key ≫= Python.int_of_str))
  else if String.eqb key "category" then
    bool_decide (is_Some (nat_field d key ≫= get_category db))
  else bool_decide (is_Some (required d key)).

Definition post_errors (db : DB) (f : PostForm) : list string :=
  match post_data f with
  | None => []
  | Some d =>
      List.filter (fun key => negb (post_field_ok db d key))
        ["title"; "text"; "pub_date"; "category"]
  end.

Definition post_is_valid (db : DB) (f : PostForm) : bool :=
  match post_data f with
  | None => false
  | Some d => bool_decide (post_errors db f = [])
  end.

(** [form.instance] of a valid form: the instance updated from the
    cleaned data.  A fresh instance carries whatever [author] key the
    client sent; an existing one keeps its author. *)
Definition post_construct_instance (f : PostForm) : Post :=
  let d := default ∅ (post_data f) in
  let title := default "" (required d "title") in
  let text := default "" (required d "text") in
  let pub_date := default 0 (required d "pub_date" ≫= Python.int_of_str) in
  let category := default 0%nat (nat_field d "category") in
  let location := nat_field d "location" in
  let is_published := bool_decide (is_Some (d !! "is_published")) in
  match post_instance f with
  | Some p =>
      mkPost (post_id p) title text pub_date is_published (author p)
        category location (created_at p)
  | None =>
      mkPost 0 title text pub_date is_published
        (default 0%nat (nat_field d "author")) category location 0
  end.

End Forms.

Import Forms.

(** ** [blog/views.py] *)

Module Views.

(** What a template is rendered with. *)
Inductive Context :=
| index_context (page_obj : Paginator.Page Post)
    (comment_count : list (Post * nat))
| detail_context (post : Post) (comments : list Comment) (form : CommentForm)
| category_context (category : Category) (page_obj : Paginator.Page Post)
| post_form_context (form : PostForm)
| comment_form_context (form : CommentForm) (comment : Comment)
| comment_delete_context (comment : Comment).

Inductive Response :=
| Redirect (to : Url)
| Render (template : string) (context : Context)
| NotFound
| Forbidden
| ServerError.

(** A view runs on a request and a store; it returns the new store with
    its response, or raises. *)
Definition View := Request → DB → Exn + (DB * Response).

(** The framework's exception handler: [Http404] becomes the not-found
    page, [PermissionDenied] the forbidden page, anything else a server
    error.  No view below writes before it raises. *)
Definition serve (view : View) (request : Request) (db : DB)
  : DB * Response :=
  match view request db with
  | inr r => r
  | inl Http404 => (db, NotFound)
  | inl PermissionDenied => (db, Forbidden)
  | inl _ => (db, ServerError)
  end.

(** [get_object_or_404(klass, id=pk)] *)
Definition get_object_or_404 {A} (rows : list A) (test : A → bool)
  : Exn + A :=
  match List.find test rows with
  | Some x => inr x
  | None => inl Http404
  end.

(** Keys are natural numbers of any size; what the database driver does
    with a key that does not fit the key column is outside the model. *)
Definition get_post_or_404 (db : DB) (post_id : nat) : Exn + Post :=
  get_object_or_404 (posts db) (fun p => Nat.eqb (Models.post_id p) post_id).

Definition paginate_queryset {A} (queryset : list A) (request : Request)
  : Exn + Paginator.Page A :=
  let paginator := Paginator.new queryset POSTS_PER_PAGE in
  let page_number := Python.get (req_GET request) "page" in
  match Paginator.get_page paginator page_number with
  | inl e => inl (InvalidPage e)
  | inr p => inr p
  end.

(** [comment.author = request.user]: assigning the anonymous user to a
    foreign key on [User] raises [ValueError]. *)
Definition set_author (u : RequestUser) : Exn + nat :=
  match u with
  | LoggedIn u => inr (user_id u)
  | AnonymousUser => inl ValueError
  end.

(** [comment.save()] of a new comment: the store assigns the primary key
    and the creation time. *)
Definition insert_comment (now : Z) (c : Comment) (db : DB) : DB :=
  let pk := next_id (comment_id <$> comments db) in
  mkDB (users db) (categories db) (posts db)
    (comments db ++
       [mkComment pk (comment_text c) (comment_post c) (comment_author c) now]).

(** [form.save()] on an existing comment. *)
Definition update_comment (c : Comment) (db : DB) : DB :=
  mkDB (users db) (categories db) (posts db)
    ((fun x => if Nat.eqb (comment_id x) (comment_id c) then c else x)
       <$> comments db).

(** [comment.delete()] *)
Definition delete_comment_row (c : Comment) (db : DB) : DB :=
  mkDB (users db) (categories db) (posts db)
    (List.filter (fun x => negb (Nat.eqb (comment_id x) (comment_id c)))
       (comments db)).

Definition insert_post (now : Z) (p : Post) (db : DB) : DB :=
  let pk := next_id (Models.post_id <$> posts db) in
  mkDB (users db) (categories db)
    (posts db ++
       [mkPost pk (title p) (text p) (pub_date p) (is_published p) (author p)
          (category p) (location p) now])
    (comments db).

Definition update_post (p : Post) (db : DB) : DB :=
  mkDB (users db) (categories db)
    ((fun x => if Nat.eqb (Models.post_id x) (Models.post_id p) then p else x)
       <$> posts db)
    (comments db).

(** [post.delete()]: the comments of the post go with it. *)
Definition delete_post_row (p : Post) (db : DB) : DB :=
  mkDB (users db) (categories db)
    (List.filter
       (fun x => negb (Nat.eqb (Models.post_id x) (Models.post_id p)))
       (posts db))
    (List.filter
       (fun c => negb (Nat.eqb (comment_post c) (Models.post_id p)))
       (comments db)).

(** *** [OnlyAuthorMixin] *)

Definition test_func (get_object : DB → Exn + Post)
  : Request → DB → Exn + bool :=
  fun request db =>
    object ← get_object db;
    mret (author_eq (author object) (user request)
          || user_is_superuser (user request)).

Definition only_author_handle_no_permission (get_object : DB → Exn + Post)
  : Request → DB → Exn + Response :=
  fun request db =>
    object ← get_object db;
    mret (Redirect (url_post_detail (Models.post_id object))).

(** [AccessMixin.handle_no_permission], which [PostCreateView] inherits. *)
Definition access_handle_no_permission
  : Request → DB → Exn + Response :=
  fun request db =>
    if is_authenticated (user request) then inl PermissionDenied
    else mret (Redirect url_login).

(** [LoginRequiredMixin.dispatch]: [handle_no_permission] is looked up on
    the view class. *)
Definition login_required_dispatch
    (handle_no_permission : Request → DB → Exn + Response)
    (next : View) : View :=
  fun request db =>
    if negb (is_authenticated (user request)) then
      r ← handle_no_permission request db; mret (db, r)
    else next request db.

(** [UserPassesTestMixin.dispatch] *)
Definition user_passes_test_dispatch
    (test : Request → DB → Exn + bool)
    (handle_no_permission : Request → DB → Exn + Response)
    (next : View) : View :=
  fun request db =>
    user_test_result ← test request db;
    if negb user_test_result then
      r ← handle_no_permission request db; mret (db, r)
    else next request db.

(** The [login_required] decorator. *)
Definition login_required (view : View) : View :=
  fun request db =>
    if is_authenticated (user request) then view request db
    else mret (db, Redirect url_login).

(** [request.user.username] *)
Definition request_username (u : RequestUser) : string :=
  match u with
  | LoggedIn u => username u
  | AnonymousUser => ""
  end.

Definition index (now : Z) : View :=
  fun request db =>
    let post_list := PostManager.available db now in
    page_obj ← paginate_queryset post_list request;
    let comment_count :=
      (fun post => (post, List.length (post_comments db post)))
        <$> Paginator.page_object_list page_obj in
    mret (db, Render "blog/index.html" (index_context page_obj comment_count)).

Definition post_detail (now : Z) (post_id : nat) : View :=
  fun request db =>
    post ← get_post_or_404 db post_id;
    if negb (is_published post)
       && negb (author_eq (author post) (user request))
    then inl Http404
    else
      let comments := post_comments db post in
      let form := mkCommentForm None None in
      let render form :=
        mret (db, Render "blog/detail.html" (detail_context post comments form)) in
      match method request with
      | POST =>
          let form := mkCommentForm (Some (req_POST request)) None in
          if comment_is_valid form then
            let comment := comment_save_commit_false form in
            author ← set_author (user request);
            let comment :=
              mkComment (comment_id comment) (comment_text comment)
                (Models.post_id post) author (comment_created_at comment) in
            mret (insert_comment now comment db,
                  Redirect (url_post_detail (Models.post_id post)))
          else render form
      | GET => render form
      end.

Definition category_posts (now : Z) (category_slug : string) : View :=
  fun request db =>
    category ← get_object_or_404 (categories db)
      (fun c => String.eqb (slug c) category_slug && category_is_published c);
    let post_list :=
      PostQuerySet.available db now
        (List.filter (fun p => Nat.eqb (Models.category p) (category_id category))
           (posts db)) in
    page_obj ← paginate_queryset post_list request;
    mret (db, Render "blog/category.html" (category_context category page_obj)).

(** [order_by('-pub_date')] *)
Fixpoint insert_by_pub_date (x : Post * nat) (l : list (Post * nat))
  : list (Post * nat) :=
  match l with
  | [] => [x]
  | y :: l' =>
      if pub_date (fst y) <? pub_date (fst x) then x :: l
      else y :: insert_by_pub_date x l'
  end.

Definition order_by_pub_date_desc (l : list (Post * nat)) : list (Post * nat) :=
  foldr insert_by_pub_date [] l.

(** [UserProfileView.get_queryset] *)
Definition profile_get_queryset (user : User) (db : DB) : list (Post * nat) :=
  order_by_pub_date_desc
    (PostQuerySet.with_comment_count db
       (List.filter (fun p => Nat.eqb (author p) (user_id user)) (posts db))).

(** [PostCreateView]: [LoginRequiredMixin], then [CreateView]. *)
Definition post_create_form_valid (now : Z) (form : PostForm) : View :=
  fun request db =>
    let instance := post_construct_instance form in
    author ← set_author (user request);
    let instance :=
      mkPost (Models.post_id instance) (title instance) (text instance)
        (pub_date instance) (is_published instance) author
        (category instance) (location instance) (created_at instance) in
    mret (insert_post now instance db,
          Redirect (url_profile (request_username (user request)))).

Definition PostCreateView (now : Z) : View :=
  login_required_dispatch access_handle_no_permission
    (fun request db =>
       match method request with
       | GET =>
           mret (db, Render "blog/create.html"
                       (post_form_context (mkPostForm None None)))
       | POST =>
           let form := mkPostForm (Some (req_POST request)) None in
           if post_is_valid db form
           then post_create_form_valid now form request db
           else mret (db, Render "blog/create.html" (post_form_context form))
       end).

(** [PostEditView]: [LoginRequiredMixin], [OnlyAuthorMixin], then
    [UpdateView].  Both mixins call [self.handle_no_permission()], which
    the method resolution order finds on [OnlyAuthorMixin]. *)
Definition PostEditView (post_id : nat) : View :=
  let get_object db := get_post_or_404 db post_id in
  login_required_dispatch (only_author_handle_no_permission get_object)
    (user_passes_test_dispatch (test_func get_object)
       (only_author_handle_no_permission get_object)
       (fun request db =>
          object ← get_object db;
          match method request with
          | GET =>
              mret (db, Render "blog/create.html"
                          (post_form_context (mkPostForm None (Some object))))
          | POST =>
              let form := mkPostForm (Some (req_POST request)) (Some object) in
              if post_is_valid db form then
                let object := post_construct_instance form in
                mret (update_post object db,
                      Redirect (url_post_detail (Models.post_id object)))
              else
                mret (db, Render "blog/create.html" (post_form_context form))
          end)).

(** [PostDeleteView]: [LoginRequiredMixin], [OnlyAuthorMixin], then
    [DeleteView]. *)
Definition PostDeleteView (post_id : nat) : View :=
  let get_object db := get_post_or_404 db post_id in
  login_required_dispatch (only_author_handle_no_permission get_object)
    (user_passes_test_dispatch (test_func get_object)
       (only_author_handle_no_permission get_object)
       (fun request db =>
          object ← get_object db;
          match method request with
          | GET =>
              mret (db, Render "blog/create.html"
                          (post_form_context (mkPostForm None (Some object))))
          | POST => mret (delete_post_row object db, Redirect url_index)
          end)).

Definition add_comment (now : Z) (post_id : nat) : View :=
  login_required
    (fun request db =>
       post ← get_post_or_404 db post_id;
       let form := mkCommentForm (Some (req_POST request)) None in
       if comment_is_valid form then
         let comment := comment_save_commit_false form in
         author ← set_author (user request);
         let comment :=
           mkComment (comment_id comment) (comment_text comment)
             (Models.post_id post) author (comment_created_at comment) in
         mret (insert_comment now comment db, Redirect (url_post_detail post_id))
       else mret (db, Redirect (url_post_detail post_id))).

(** [request.POST or None]: an empty query dictionary is falsy. *)
Definition POST_or_None (request : Request) : option (gmap string string) :=
  if bool_decide (req_POST request = ∅) then None
  else Some (req_POST request).

Definition edit_comment (post_id comment_id : nat) : View :=
  login_required
    (fun request db =>
       comment ← get_object_or_404 (comments db)
         (fun c => Nat.eqb (Models.comment_id c) comment_id);
       if negb (author_eq (comment_author comment) (user request)) then
         mret (db, Redirect (url_post_detail post_id))
       else
         let form := mkCommentForm (POST_or_None request) (Some comment) in
         if comment_is_valid form then
           mret (update_comment (comment_save_commit_false form) db,
                 Redirect (url_post_detail post_id))
         else
           mret (db, Render "blog/comment.html"
                       (comment_form_context form comment))).

Definition delete_comment (post_id comment_id : nat) : View :=
  login_required
    (fun request db =>
       comment ← get_object_or_404 (comments db)
         (fun c => Nat.eqb (Models.comment_id c) comment_id);
       if negb (author_eq (comment_author comment) (user request)) then
         mret (db, Redirect (url_post_detail post_id))
       else
         match method request with
         | POST =>
             mret (delete_comment_row comment db,
                   Redirect (url_post_detail post_id))
         | GET =>
             mret (db, Render "blog/comment.html"
                         (comment_delete_context comment))
         end).

End Views.

Import Views.

(** ** A small store for the examples *)

Module Sample.

Definition alice : User := mkUser 1 "alice" false.
Definition bob : User := mkUser 2 "bob" false.
Definition root : User := mkUser 3 "root" true.

Definition news : Category := mkCategory 1 "news" true.
Definition drafts : Category := mkCategory 2 "drafts" false.

Definition now : Z := 1000.

(** Published, in a published category, in the past. *)
Definition p1 : Post := mkPost 1 "first" "hello" 100 true 1 1 None 90.
(** Not published. *)
Definition p2 : Post := mkPost 2 "second" "draft" 100 false 1 1 None 91.
(** Published, in an unpublished category. *)
Definition p3 : Post := mkPost 3 "third" "hidden" 100 true 2 2 None 92.
(** Published, scheduled for later. *)
Definition p4 : Post := mkPost 4 "fourth" "later" 9999 true 2 1 None 93.

Definition c1 : Comment := mkComment 1 "nice" 1 2 200.
Definition c2 : Comment := mkComment 2 "thanks" 1 1 201.
Definition c3 : Comment := mkComment 3 "why" 3 1 202.

Definition db : DB :=
  mkDB [alice; bob; root] [news; drafts] [p1; p2; p3; p4] [c1; c2; c3].

Definition get_by (u : RequestUser) : Request := mkRequest u GET ∅ ∅.

Definition post_by (u : RequestUser) (form : list (string * string))
  : Request :=
  mkRequest u POST ∅ (list_to_map form).

End Sample.

(** ** [UserProfileView]

    A [ListView] with [paginate_by = POSTS_PER_PAGE]: the framework's
    [MultipleObjectMixin.paginate_queryset] is written out as the
    framework defines it.  Unlike [Paginator.get_page], it turns every
    invalid page into [Http404]. *)

Module ListView.

(** [self.kwargs.get('page') or self.request.GET.get('page') or 1]: the
    route has no [page] argument, and an empty string is falsy. *)
Definition requested_page (request : Request) : Python.PyVal :=
  match Python.get (req_GET request) "page" with
  | Python.PyStr s => if String.eqb s "" then Python.PyInt 1 else Python.PyStr s
  | _ => Python.PyInt 1
  end.

Definition paginate_queryset {A} (queryset : list A) (page_size : Z)
    (request : Request) : Exn + Paginator.Page A :=
  let paginator := Paginator.new queryset page_size in
  let page := requested_page request in
  page_number ←
    match Python.int page with
    | Some n => inr n
    | None =>
        match page with
        | Python.PyStr s =>
            if String.eqb s "last" then inr (Paginator.num_pages paginator)
            else inl Http404
        | _ => inl Http404
        end
    end;
  match Paginator.page paginator (Python.PyInt page_number) with
  | inr page => inr page
  | inl _ => inl Http404
  end.



(** The order [order_by('-pub_date')] asks for: newest first. *)
Definition newer_or_equal (a b : Post * nat) : Prop :=
  pub_date (fst b) <= pub_date (fst a).



End ListView.

(** ** The site as a state machine

    The nine views of [blog/views.py] that serve posts and comments, and
    what a sequence of requests to them leaves in the store.  The two
    profile views are apart: [UserProfileView] is modelled above and only
    reads, [UserProfileEditView] saves [request.user] and is not
    modelled. *)

Module Site.

Inductive Handler :=
| h_index
| h_post_detail (post_id : nat)
| h_category_posts (category_slug : string)
| h_post_create
| h_post_edit (post_id : nat)
| h_post_delete (post_id : nat)
| h_add_comment (post_id : nat)
| h_edit_comment (post_id comment_id : nat)
| h_delete_comment (post_id comment_id : nat).

Definition view_of (now : Z) (h : Handler) : View :=
  match h with
  | h_index => index now
  | h_post_detail post_id => post_detail now post_id
  | h_category_posts category_slug => category_posts now category_slug
  | h_post_create => PostCreateView now
  | h_post_edit post_id => PostEditView post_id
  | h_post_delete post_id => PostDeleteView post_id
  | h_add_comment post_id => add_comment now post_id
  | h_edit_comment post_id comment_id => edit_comment post_id comment_id
  | h_delete_comment post_id comment_id => delete_comment post_id comment_id
  end.

(** One served request: the time it arrives, the view it is routed to and
    the request itself. *)
Record Event := mkEvent {
  at_time : Z;
  handler : Handler;
  request : Request
}.

Definition step (db : DB) (e : Event) : DB :=
  fst (serve (view_of (at_time e) (handler e)) (request e) db).

Definition run (events : list Event) (db : DB) : DB :=
  fold_left step events db.

(** The keys a 64-bit signed key column holds. *)
Definition fits_key_column (k : nat) : Prop := Z.of_nat k < 2 ^ 63.

(** Primary keys are unique in both tables. *)
Definition keys_unique (db : DB) : Prop :=
  List.NoDup (post_id <$> posts db) ∧ List.NoDup (comment_id <$> comments db).

(** Every comment references a stored post. *)
Definition comments_attached (db : DB) : Prop :=
  ∀ c, In c (comments db) → In (comment_post c) (post_id <$> posts db).

(** The writes the views perform on the store. *)
Inductive Write (db : DB) : DB → Prop :=
| write_nothing : Write db db
| write_insert_post (now : Z) (p : Post) : Write db (insert_post now p db)
| write_update_post (p q : Post) :
    In p (posts db) → post_id q = post_id p → Write db (update_post q db)
| write_delete_post (p : Post) : Write db (delete_post_row p db)
| write_insert_comment (now : Z) (c : Comment) :
    In (comment_post c) (post_id <$> posts db) →
    Write db (insert_comment now c db)
| write_update_comment (c c' : Comment) :
    In c (comments db) →
    comment_id c' = comment_id c →
    comment_post c' = comment_post c →
    Write db (update_comment c' db)
| write_delete_comment (c : Comment) : Write db (delete_comment_row c db).

End Site.

(** * Properties *)

(** ** The availability filter *)

Section Availability.

Context (db : DB) (now : Z).

Lemma category_published_In (self : list Post) (p : Post) :
  In p (PostQuerySet.category_published db self) ↔
  In p self ∧
  ∃ c, get_category db (category p) = Some c ∧ category_is_published c = true.
Proof.
  unfold PostQuerySet.category_published. rewrite filter_In.
  split; intros [Hin Hc]; split; auto.
  - destruct (get_category db (category p)) as [c|]; [eauto | discriminate].
  - destruct Hc as (c & -> & Hpub). exact Hpub.
Qed.

Lemma published_In (self : list Post) (p : Post) :
  In p (PostQuerySet.published self) ↔ In p self ∧ is_published p = true.
Proof. unfold PostQuerySet.published. apply filter_In. Qed.

Lemma published_up_to_now_In (self : list Post) (p : Post) :
  In p (PostQuerySet.published_up_to_now now self) ↔
  In p self ∧ pub_date p <= now.
Proof.
  unfold PostQuerySet.published_up_to_now.
  rewrite filter_In, Z.leb_le. reflexivity.
Qed.

Lemma available_In (self : list Post) (p : Post) :
  In p (PostQuerySet.available db now self) ↔
  In p self ∧
  is_published p = true ∧
  (∃ c, get_category db (category p) = Some c
        ∧ category_is_published c = true) ∧
  pub_date p <= now.
Proof.
  unfold PostQuerySet.available.
  rewrite published_up_to_now_In, published_In, category_published_In.
  tauto.
Qed.

End Availability.

(** C1.  A stored post [P] is in the result of [available()] exactly when
    [P.is_published] holds, the category [P] refers to is stored with
    [is_published] set, and [P.pub_date] is at most the current time. *)
Theorem C1_available_iff (db : DB) (now : Z) (P : Post) :
  In P (PostManager.available db now) ↔
  In P (posts db) ∧
  is_published P = true ∧
  (∃ c, get_category db (category P) = Some c
        ∧ category_is_published c = true) ∧
  pub_date P <= now.
Proof. apply available_In. Qed.

(** ** The pagination helper *)

Section Pagination.

Context {A : Type} (queryset : list A).

Local Abbreviation paginator := (Paginator.new queryset POSTS_PER_PAGE).

Lemma num_pages_pos : 1 <= Paginator.num_pages paginator.
Proof.
  unfold Paginator.num_pages, Paginator.new, POSTS_PER_PAGE. simpl.
  rewrite andb_false_r.
  set (hits := Z.max 1 _).
  assert (1 <= hits) by (unfold hits; lia).
  pose proof (Z_div_mod_eq_full (- hits) 10).
  pose proof (Z.mod_pos_bound (- hits) 10 ltac:(lia)).
  lia.
Qed.

Local Abbreviation settled_number := (Paginator.settled_number paginator).

Lemma validate_number_range (number : Python.PyVal) (n : Z) :
  Paginator.validate_number paginator number = inr n →
  1 <= n <= Paginator.num_pages paginator.
Proof.
  unfold Paginator.validate_number.
  destruct (Python.int number) as [z|]; [|discriminate].
  destruct (z <? 1) eqn:E1; [discriminate|].
  destruct (z >? Paginator.num_pages paginator) eqn:E2; [discriminate|].
  intros [= <-]. lia.
Qed.

Lemma settled_number_range (number : Python.PyVal) :
  1 <= settled_number number <= Paginator.num_pages paginator.
Proof.
  unfold Paginator.settled_number. pose proof num_pages_pos.
  destruct (Paginator.validate_number paginator number) as [[]|n] eqn:E;
    [lia | lia | by apply (validate_number_range number)].
Qed.

Lemma validate_number_int (n : Z) :
  1 <= n <= Paginator.num_pages paginator →
  Paginator.validate_number paginator (Python.PyInt n) = inr n.
Proof.
  intros H. unfold Paginator.validate_number. simpl.
  destruct (n <? 1) eqn:E1; [lia|].
  destruct (n >? Paginator.num_pages paginator) eqn:E2; [lia|]. done.
Qed.

Lemma slice_length (bottom top : Z) :
  top <= bottom + 10 →
  (List.length (Python.slice queryset bottom top) <= 10)%nat.
Proof.
  intros H. unfold Python.slice. rewrite length_take. lia.
Qed.

Lemma slice_page (n : Z) :
  1 <= n →
  let bottom := (n - 1) * 10 in
  let top := bottom + 10 in
  let top := if top + 0 >=? Z.of_nat (List.length queryset)
             then Z.of_nat (List.length queryset) else top in
  Python.slice queryset bottom top
  = take 10 (drop (Z.to_nat ((n - 1) * 10)) queryset).
Proof.
  intros Hn bottom top top'. unfold Python.slice.
  subst top'. destruct (top + 0 >=? _) eqn:E.
  - rewrite !take_ge; [done | |]; rewrite length_drop; unfold top, bottom in *; lia.
  - f_equal. unfold top. lia.
Qed.

Lemma get_page_ok (number : Python.PyVal) :
  Paginator.get_page paginator number
  = inr (Paginator.mkPage
           (take 10 (drop (Z.to_nat ((settled_number number - 1) * 10)) queryset))
           (settled_number number) paginator).
Proof.
  unfold Paginator.get_page. fold (Paginator.settled_number paginator number).
  pose proof (settled_number_range number) as Hr.
  unfold Paginator.page. rewrite (validate_number_int _ Hr).
  f_equal. f_equal.
  apply (slice_page (settled_number number)). lia.
Qed.



Lemma settled_below (number : Python.PyVal) (n : Z) :
  Python.int number = Some n →
  n < 1 →
  settled_number number = Paginator.num_pages paginator.
Proof.
  intros H Hn. unfold Paginator.settled_number, Paginator.validate_number. rewrite H.
  destruct (n <? 1) eqn:E; [done | lia].
Qed.

Lemma settled_in_range (number : Python.PyVal) (n : Z) :
  Python.int number = Some n →
  1 <= n <= Paginator.num_pages paginator →
  settled_number number = n.
Proof.
  intros H Hn. unfold Paginator.settled_number, Paginator.validate_number. rewrite H.
  destruct (n <? 1) eqn:E1; [lia|].
  destruct (n >? Paginator.num_pages paginator) eqn:E2; [lia | done].
Qed.

Lemma paginate_queryset_ok (request : Request) :
  paginate_queryset queryset request
  = inr (Paginator.mkPage
           (take 10
              (drop (Z.to_nat
                       ((settled_number (Python.get (req_GET request) "page") - 1)
                        * 10)) queryset))
           (settled_number (Python.get (req_GET request) "page")) paginator).
Proof. unfold paginate_queryset. by rewrite get_page_ok. Qed.

End Pagination.


(** ** Comment counts *)

Section CommentCount.

Context (cs : list Comment).

(** The number of comment rows that reference the post with key [pk]. *)
Local Abbreviation referencing pk :=
  (List.length (List.filter (fun c => Nat.eqb (comment_post c) pk) cs)).

Lemma count_group_app (r1 r2 : list (Post * option Comment)) (pk : nat) :
  PostQuerySet.count_group (r1 ++ r2) pk
  = (PostQuerySet.count_group r1 pk + PostQuerySet.count_group r2 pk)%nat.
Proof.
  unfold PostQuerySet.count_group.
  by rewrite List.filter_app, length_app.
Qed.

Lemma count_group_joined (p : Post) (m : list Comment) (pk : nat) :
  PostQuerySet.count_group (List.map (fun c => (p, Some c)) m) pk
  = if Nat.eqb (post_id p) pk then List.length m else 0%nat.
Proof.
  unfold PostQuerySet.count_group.
  induction m as [|c m IH]; simpl.
  - by destruct (Nat.eqb _ _).
  - destruct (Nat.eqb (post_id p) pk); simpl in *; [by rewrite IH | exact IH].
Qed.

(** The rows the join holds for one post. *)
Lemma count_group_one (p : Post) (pk : nat) :
  PostQuerySet.count_group (PostQuerySet.left_join [p] cs) pk
  = if Nat.eqb (post_id p) pk then referencing pk else 0%nat.
Proof.
  unfold PostQuerySet.left_join. simpl. rewrite app_nil_r.
  destruct (Nat.eqb (post_id p) pk) eqn:E.
  - apply Nat.eqb_eq in E. subst pk.
    destruct (List.filter _ cs) as [|c m] eqn:F.
    + unfold PostQuerySet.count_group. simpl. by rewrite andb_false_r.
    + rewrite (count_group_joined p (c :: m)). by rewrite Nat.eqb_refl.
  - destruct (List.filter _ cs) as [|c m].
    + unfold PostQuerySet.count_group. simpl. by rewrite E.
    + rewrite (count_group_joined p (c :: m)). by rewrite E.
Qed.

Lemma left_join_cons (p : Post) (ps : list Post) :
  PostQuerySet.left_join (p :: ps) cs
  = PostQuerySet.left_join [p] cs ++ PostQuerySet.left_join ps cs.
Proof. unfold PostQuerySet.left_join. simpl. by rewrite app_nil_r. Qed.

Lemma count_group_absent (ps : list Post) (pk : nat) :
  ¬ In pk (post_id <$> ps) →
  PostQuerySet.count_group (PostQuerySet.left_join ps cs) pk = 0%nat.
Proof.
  induction ps as [|p ps IH]; intros Hnot; [done|].
  rewrite left_join_cons, count_group_app, count_group_one.
  rewrite IH by (intros ?; apply Hnot; by right).
  destruct (Nat.eqb (post_id p) pk) eqn:E; [|done].
  apply Nat.eqb_eq in E. exfalso. apply Hnot. by left.
Qed.

Lemma count_group_present (ps : list Post) (p : Post) :
  List.NoDup (post_id <$> ps) →
  In p ps →
  PostQuerySet.count_group (PostQuerySet.left_join ps cs) (post_id p)
  = referencing (post_id p).
Proof.
  induction ps as [|q ps IH]; intros Hnd Hin; [done|].
  rewrite left_join_cons, count_group_app, count_group_one.
  apply List.NoDup_cons_iff in Hnd as [Hq Hnd].
  destruct Hin as [->|Hin].
  - rewrite Nat.eqb_refl, count_group_absent by done. lia.
  - rewrite IH by done.
    destruct (Nat.eqb (post_id q) (post_id p)) eqn:E; [|done].
    apply Nat.eqb_eq in E. exfalso. apply Hq. rewrite E.
    by apply (in_map post_id).
Qed.

End CommentCount.

Lemma with_comment_count_In (db : DB) (self : list Post) (p : Post) (n : nat) :
  List.NoDup (post_id <$> self) →
  In (p, n) (PostQuerySet.with_comment_count db self) →
  In p self ∧ n = List.length (post_comments db p).
Proof.
  intros Hnd Hin. unfold PostQuerySet.with_comment_count in Hin.
  apply in_map_iff in Hin as (q & [= -> <-] & Hq).
  split; [done|]. by apply count_group_present.
Qed.

Lemma NoDup_filter_keys (test : Post → bool) (ps : list Post) :
  List.NoDup (post_id <$> ps) →
  List.NoDup (post_id <$> List.filter test ps).
Proof.
  induction ps as [|q ps IH]; simpl; intros Hnd; [done|].
  apply List.NoDup_cons_iff in Hnd as [Hq Hnd].
  destruct (test q); simpl; [|by apply IH].
  apply List.NoDup_cons; [|by apply IH].
  intros Hin. apply Hq.
  apply in_map_iff in Hin as (x & Hx & Hin).
  apply filter_In in Hin as [Hin _].
  rewrite <- Hx. by apply (in_map post_id).
Qed.

Lemma insert_by_pub_date_In (x y : Post * nat) (l : list (Post * nat)) :
  In y (insert_by_pub_date x l) ↔ y = x ∨ In y l.
Proof.
  induction l as [|z l IH]; simpl.
  - intuition congruence.
  - destruct (pub_date z.1 <? pub_date x.1); simpl.
    + intuition congruence.
    + rewrite IH. tauto.
Qed.

Lemma order_by_pub_date_desc_In (y : Post * nat) (l : list (Post * nat)) :
  In y (order_by_pub_date_desc l) ↔ In y l.
Proof.
  unfold order_by_pub_date_desc.
  induction l as [|x l IH]; simpl; [done|].
  rewrite insert_by_pub_date_In, IH. intuition congruence.
Qed.

(** C8.  With primary keys unique, the [comment_count] that
    [with_comment_count()] attaches to a post is the number of stored
    comments that reference the post, for the manager's queryset and for
    the profile page's queryset; the count the index view sets on each
    post of its page is the same number. *)
Theorem C8_comment_count (db : DB) (now : Z) (request : Request) (user : User) :
  List.NoDup (post_id <$> posts db) →
  (∀ p n, In (p, n) (PostManager.with_comment_count db) ↔
          In p (posts db) ∧
          n = List.length
                (List.filter (fun c => Nat.eqb (comment_post c) (post_id p))
                   (comments db))) ∧
  (∀ p n, In (p, n) (profile_get_queryset user db) →
          n = List.length
                (List.filter (fun c => Nat.eqb (comment_post c) (post_id p))
                   (comments db))) ∧
  ∃ page_obj comment_count,
    serve (index now) request db
    = (db, Render "blog/index.html" (index_context page_obj comment_count)) ∧
    (∀ p, In p (Paginator.page_object_list page_obj) →
          ∃ n, In (p, n) comment_count) ∧
    (∀ p n, In (p, n) comment_count →
          n = List.length
                (List.filter (fun c => Nat.eqb (comment_post c) (post_id p))
                   (comments db))).
Proof.
  intros Hnd. split; [|split].
  - intros p n. split.
    + intros Hin. by apply with_comment_count_In in Hin.
    + intros [Hin ->]. unfold PostManager.with_comment_count,
        PostQuerySet.with_comment_count, PostManager.get_queryset.
      apply in_map_iff. exists p. split; [|done].
      f_equal. by apply count_group_present.
  - intros p n Hin. unfold profile_get_queryset in Hin.
    apply (proj1 (order_by_pub_date_desc_In _ _)) in Hin.
    apply with_comment_count_In in Hin as [_ ->]; [done|].
    by apply NoDup_filter_keys.
  - unfold serve, index.
    rewrite paginate_queryset_ok. simpl.
    eexists _, _. split; [reflexivity|]. simpl. split.
    + intros p Hin. eexists.
      apply in_map_iff. exists p. split; [reflexivity | exact Hin].
    + intros p n Hin.
      apply in_map_iff in Hin as (q & [= -> <-] & _). reflexivity.
Qed.

Lemma C8_comment_count_witness :
  List.NoDup (post_id <$> posts Sample.db) ∧
  In (Sample.p1, 2%nat) (PostManager.with_comment_count Sample.db).
Proof.
  assert (Hnd : List.NoDup (post_id <$> posts Sample.db)).
  { vm_compute. repeat constructor; simpl; intuition discriminate. }
  split; [exact Hnd|].
  pose proof (C8_comment_count Sample.db Sample.now
                (Sample.get_by AnonymousUser) Sample.alice Hnd) as [H _].
  apply H. split; [by left | reflexivity].
Defined.

(** ** The request handlers *)

Ltac unfold_monad := unfold mbind, mret, exn_bind, exn_ret in *.

Lemma get_object_or_404_inv {A} (rows : list A) (test : A → bool) (x : A) :
  get_object_or_404 rows test = inr x → In x rows ∧ test x = true.
Proof.
  unfold get_object_or_404.
  destruct (List.find test rows) as [y|] eqn:E; [|discriminate].
  intros [= <-]. by apply find_some in E.
Qed.

Lemma get_post_or_404_inv (db : DB) (pid : nat) (p : Post) :
  get_post_or_404 db pid = inr p → In p (posts db) ∧ post_id p = pid.
Proof.
  intros H. apply get_object_or_404_inv in H as [Hin Heq].
  split; [done|]. by apply Nat.eqb_eq.
Qed.

Lemma author_eq_logged_in (a : nat) (u : User) :
  author_eq a (LoggedIn u) = true ↔ a = user_id u.
Proof. simpl. apply Nat.eqb_eq. Qed.

Lemma author_eq_logged_in_false (a : nat) (u : User) :
  author_eq a (LoggedIn u) = false ↔ a ≠ user_id u.
Proof. simpl. apply Nat.eqb_neq. Qed.

Section OnlyAuthor.

Context (db : DB) (pid : nat) (p : Post) (request : Request).
Context (Hget : get_post_or_404 db pid = inr p).

Local Abbreviation get_object := (fun db => get_post_or_404 db pid).
Local Abbreviation guarded next :=
  (login_required_dispatch (only_author_handle_no_permission get_object)
     (user_passes_test_dispatch (test_func get_object)
        (only_author_handle_no_permission get_object) next)).

Lemma test_func_value :
  test_func get_object request db
  = inr (author_eq (author p) (user request)
         || user_is_superuser (user request)).
Proof. unfold test_func. rewrite Hget. reflexivity. Qed.

(** A logged-in user who fails the test is sent to the post's page. *)
Lemma guarded_denied (next : View) :
  is_authenticated (user request) = true →
  author_eq (author p) (user request) || user_is_superuser (user request)
  = false →
  guarded next request db = inr (db, Redirect (url_post_detail pid)).
Proof.
  intros Hauth Htest.
  unfold login_required_dispatch, user_passes_test_dispatch.
  rewrite Hauth, test_func_value. unfold_monad. simpl. rewrite Htest. simpl.
  unfold only_author_handle_no_permission. rewrite Hget. unfold_monad.
  by destruct (get_post_or_404_inv _ _ _ Hget) as [_ ->].
Qed.

(** A logged-in user who passes the test reaches the view. *)
Lemma guarded_granted (next : View) :
  is_authenticated (user request) = true →
  author_eq (author p) (user request) || user_is_superuser (user request)
  = true →
  guarded next request db = next request db.
Proof.
  intros Hauth Htest.
  unfold login_required_dispatch, user_passes_test_dispatch.
  rewrite Hauth, test_func_value. unfold_monad. simpl. by rewrite Htest.
Qed.

(** The anonymous user never reaches the test: the mixin's own
    [handle_no_permission] answers. *)
Lemma guarded_anonymous (next : View) :
  is_authenticated (user request) = false →
  guarded next request db = inr (db, Redirect (url_post_detail pid)).
Proof.
  intros Hauth. unfold login_required_dispatch. rewrite Hauth. simpl.
  unfold only_author_handle_no_permission. rewrite Hget. unfold_monad.
  by destruct (get_post_or_404_inv _ _ _ Hget) as [_ ->].
Qed.

End OnlyAuthor.

Section CommentGuard.

Context (db : DB) (cpid cid : nat) (c : Comment) (request : Request).
Context (Hget : get_object_or_404 (comments db)
                  (fun x => Nat.eqb (comment_id x) cid) = inr c).

Lemma edit_comment_denied :
  is_authenticated (user request) = true →
  author_eq (comment_author c) (user request) = false →
  edit_comment cpid cid request db
  = inr (db, Redirect (url_post_detail cpid)).
Proof.
  intros Hauth Hne. unfold edit_comment, login_required.
  rewrite Hauth, Hget. unfold_monad. by rewrite Hne.
Qed.

Lemma delete_comment_denied :
  is_authenticated (user request) = true →
  author_eq (comment_author c) (user request) = false →
  delete_comment cpid cid request db
  = inr (db, Redirect (url_post_detail cpid)).
Proof.
  intros Hauth Hne. unfold delete_comment, login_required.
  rewrite Hauth, Hget. unfold_monad. by rewrite Hne.
Qed.

Lemma edit_comment_author_get :
  author_eq (comment_author c) (user request) = true →
  method request = GET →
  edit_comment cpid cid request db
  = inr (db, Render "blog/comment.html"
               (comment_form_context (mkCommentForm None (Some c)) c)).
Proof.
  intros Heq Hm. unfold edit_comment, login_required.
  assert (is_authenticated (user request) = true) as ->
    by (destruct (user request); [discriminate | done]).
  rewrite Hget. unfold_monad. rewrite Heq. simpl.
  unfold POST_or_None, req_POST. rewrite Hm. reflexivity.
Qed.

Lemma delete_comment_author :
  author_eq (comment_author c) (user request) = true →
  delete_comment cpid cid request db
  = inr match method request with
        | POST => (delete_comment_row c db, Redirect (url_post_detail cpid))
        | GET => (db, Render "blog/comment.html" (comment_delete_context c))
        end.
Proof.
  intros Heq. unfold delete_comment, login_required.
  assert (is_authenticated (user request) = true) as ->
    by (destruct (user request); [discriminate | done]).
  rewrite Hget. unfold_monad. rewrite Heq. simpl.
  by destruct (method request).
Qed.

End CommentGuard.

(** C2 (as the code has it).  For a logged-in user, the check of post
    edit and post delete ([OnlyAuthorMixin.test_func]) is true exactly
    when the user is the post's author or a superuser, and the two views
    run or redirect accordingly.  The check of comment edit and comment
    delete passes exactly when the user is the comment's author: anyone
    else, superuser or not, is redirected and the comment is untouched. *)
Theorem C2_authorization_checks (db : DB) (request : Request) (u : User) :
  user request = LoggedIn u →
  (∀ pid p, get_post_or_404 db pid = inr p →
     ∃ b,
       test_func (fun db => get_post_or_404 db pid) request db = inr b ∧
       (b = true ↔ author p = user_id u ∨ is_superuser u = true) ∧
       (b = true →
        serve (PostDeleteView pid) request db
        = match method request with
          | POST => (delete_post_row p db, Redirect url_index)
          | GET => (db, Render "blog/create.html"
                          (post_form_context (mkPostForm None (Some p))))
          end) ∧
       (b = false →
        serve (PostEditView pid) request db
        = (db, Redirect (url_post_detail pid)) ∧
        serve (PostDeleteView pid) request db
        = (db, Redirect (url_post_detail pid)))) ∧
  (∀ cpid cid c,
     get_object_or_404 (comments db) (fun x => Nat.eqb (comment_id x) cid)
     = inr c →
     (comment_author c = user_id u →
      serve (delete_comment cpid cid) request db
      = match method request with
        | POST => (delete_comment_row c db, Redirect (url_post_detail cpid))
        | GET => (db, Render "blog/comment.html" (comment_delete_context c))
        end ∧
      (method request = GET →
       serve (edit_comment cpid cid) request db
       = (db, Render "blog/comment.html"
                (comment_form_context (mkCommentForm None (Some c)) c)))) ∧
     (comment_author c ≠ user_id u →
      serve (edit_comment cpid cid) request db
      = (db, Redirect (url_post_detail cpid)) ∧
      serve (delete_comment cpid cid) request db
      = (db, Redirect (url_post_detail cpid)))).
Proof.
  intros Hu.
  assert (Hauth : is_authenticated (user request) = true) by by rewrite Hu.
  split.
  - intros pid p Hget. eexists.
    split; [by apply test_func_value|].
    rewrite Hu. simpl. split; [|split].
    + rewrite orb_true_iff, Nat.eqb_eq. reflexivity.
    + intros Hb. unfold serve, PostDeleteView.
      rewrite (guarded_granted db pid p request Hget) by (by rewrite ?Hu).
      rewrite Hget. unfold_monad. by destruct (method request).
    + intros Hb. unfold serve, PostEditView, PostDeleteView.
      by rewrite !(guarded_denied db pid p request Hget) by (by rewrite ?Hu).
  - intros cpid cid c Hget. split.
    + intros Ha.
      assert (Heq : author_eq (comment_author c) (user request) = true)
        by (rewrite Hu; by apply author_eq_logged_in).
      split.
      * unfold serve. rewrite (delete_comment_author db cpid cid c request Hget Heq).
        by destruct (method request).
      * intros Hm. unfold serve.
        by rewrite (edit_comment_author_get db cpid cid c request Hget Heq Hm).
    + intros Hne.
      assert (Heq : author_eq (comment_author c) (user request) = false)
        by (rewrite Hu; by apply author_eq_logged_in_false).
      unfold serve.
      rewrite (edit_comment_denied db cpid cid c request Hget Hauth Heq).
      by rewrite (delete_comment_denied db cpid cid c request Hget Hauth Heq).
Qed.

Lemma C2_authorization_checks_witness :
  user (Sample.post_by (LoggedIn Sample.root) []) = LoggedIn Sample.root ∧
  serve (PostDeleteView 1) (Sample.post_by (LoggedIn Sample.root) []) Sample.db
  = (delete_post_row Sample.p1 Sample.db, Redirect url_index) ∧
  serve (delete_comment 1 1) (Sample.post_by (LoggedIn Sample.root) []) Sample.db
  = (Sample.db, Redirect (url_post_detail 1)).
Proof.
  split; [reflexivity|].
  destruct (C2_authorization_checks Sample.db
              (Sample.post_by (LoggedIn Sample.root) []) Sample.root eq_refl)
    as [Hpost Hcomment].
  split.
  - destruct (Hpost 1%nat Sample.p1 eq_refl) as (b & Hb & Hiff & Hgrant & _).
    apply Hgrant. apply Hiff. by right.
  - destruct (Hcomment 1%nat 1%nat Sample.c1 eq_refl) as [_ Hdeny].
    apply Hdeny. simpl. lia.
Defined.

(** C2, as stated, fails on comments: [root] is a superuser and not the
    author of comment 1, and both the edit and the delete handler answer
    with the guard's redirect, showing no form and leaving the comment
    stored as it was. *)
Lemma C2_superuser_comment_counterexample :
  is_superuser Sample.root = true ∧
  comment_author Sample.c1 ≠ user_id Sample.root ∧
  serve (edit_comment 1 1) (Sample.get_by (LoggedIn Sample.root)) Sample.db
  = (Sample.db, Redirect (url_post_detail 1)) ∧
  serve (edit_comment 1 1)
    (Sample.post_by (LoggedIn Sample.root) [("text", "edited")]) Sample.db
  = (Sample.db, Redirect (url_post_detail 1)) ∧
  serve (delete_comment 1 1) (Sample.post_by (LoggedIn Sample.root) [])
    Sample.db
  = (Sample.db, Redirect (url_post_detail 1)) ∧
  In Sample.c1 (comments Sample.db).
Proof.
  split; [reflexivity|].
  split; [simpl; lia|].
  split; [reflexivity|].
  split; [reflexivity|].
  split; [reflexivity|].
  by left.
Qed.

(** C3 (as the code has it).  A logged-in user who is neither the author
    nor a superuser changes nothing and gets a redirect, never an error
    page, whatever the method and the submitted form.  Post edit and post
    delete redirect to the detail page of the post.  Comment edit and
    comment delete redirect to the detail page of the post id the URL
    carries, which is the comment's own post when the URL names that
    post. *)
Theorem C3_unauthorized_mutation_redirects
    (db : DB) (request : Request) (u : User) :
  user request = LoggedIn u →
  is_superuser u = false →
  (∀ pid p, get_post_or_404 db pid = inr p → author p ≠ user_id u →
     post_id p = pid ∧
     serve (PostEditView pid) request db
     = (db, Redirect (url_post_detail (post_id p))) ∧
     serve (PostDeleteView pid) request db
     = (db, Redirect (url_post_detail (post_id p)))) ∧
  (∀ cpid cid c,
     get_object_or_404 (comments db) (fun x => Nat.eqb (comment_id x) cid)
     = inr c →
     comment_author c ≠ user_id u →
     serve (edit_comment cpid cid) request db
     = (db, Redirect (url_post_detail cpid)) ∧
     serve (delete_comment cpid cid) request db
     = (db, Redirect (url_post_detail cpid)) ∧
     (cpid = comment_post c →
      serve (edit_comment cpid cid) request db
      = (db, Redirect (url_post_detail (comment_post c))) ∧
      serve (delete_comment cpid cid) request db
      = (db, Redirect (url_post_detail (comment_post c))))).
Proof.
  intros Hu Hsuper.
  assert (Hauth : is_authenticated (user request) = true) by by rewrite Hu.
  split.
  - intros pid p Hget Hne.
    destruct (get_post_or_404_inv _ _ _ Hget) as [_ Hid].
    split; [done|]. rewrite Hid.
    assert (Htest : author_eq (author p) (user request)
                    || user_is_superuser (user request) = false).
    { rewrite Hu. simpl. rewrite Hsuper, orb_false_r. by apply Nat.eqb_neq. }
    unfold serve, PostEditView, PostDeleteView.
    by rewrite !(guarded_denied db pid p request Hget _ Hauth Htest).
  - intros cpid cid c Hget Hne.
    assert (Heq : author_eq (comment_author c) (user request) = false)
      by (rewrite Hu; by apply author_eq_logged_in_false).
    unfold serve.
    rewrite (edit_comment_denied db cpid cid c request Hget Hauth Heq).
    rewrite (delete_comment_denied db cpid cid c request Hget Hauth Heq).
    split; [done|]. split; [done|]. by intros ->.
Qed.

(** C3, as stated, fails on comments: [bob] is neither the author of
    comment 2 nor a superuser, comment 2 is on post 1, and his delete
    request under the URL of post 999 is answered with a redirect to the
    detail page of post 999, a post that is not stored, not to that of
    post 1. *)
Lemma C3_comment_redirect_counterexample :
  is_superuser Sample.bob = false ∧
  comment_author Sample.c2 ≠ user_id Sample.bob ∧
  comment_post Sample.c2 = 1%nat ∧
  get_post_or_404 Sample.db 999 = inl Http404 ∧
  serve (delete_comment 999 2) (Sample.post_by (LoggedIn Sample.bob) [])
    Sample.db
  = (Sample.db, Redirect (url_post_detail 999)) ∧
  serve (edit_comment 999 2)
    (Sample.post_by (LoggedIn Sample.bob) [("text", "mine now")]) Sample.db
  = (Sample.db, Redirect (url_post_detail 999)) ∧
  Redirect (url_post_detail 999)
  ≠ Redirect (url_post_detail (comment_post Sample.c2)).
Proof.
  split; [reflexivity|]. split; [simpl; lia|].
  repeat (split; [reflexivity|]). discriminate.
Qed.

Lemma C3_unauthorized_mutation_redirects_witness :
  serve (PostDeleteView 1) (Sample.post_by (LoggedIn Sample.bob) []) Sample.db
  = (Sample.db, Redirect (url_post_detail 1)) ∧
  serve (edit_comment 1 2)
    (Sample.post_by (LoggedIn Sample.bob) [("text", "mine now")]) Sample.db
  = (Sample.db, Redirect (url_post_detail 1)).
Proof.
  split.
  - destruct (C3_unauthorized_mutation_redirects Sample.db
                (Sample.post_by (LoggedIn Sample.bob) []) Sample.bob
                eq_refl eq_refl) as [Hpost _].
    destruct (Hpost 1%nat Sample.p1 eq_refl) as (_ & _ & Hdel);
      [simpl; lia | exact Hdel].
  - destruct (C3_unauthorized_mutation_redirects Sample.db
                (Sample.post_by (LoggedIn Sample.bob) [("text", "mine now")])
                Sample.bob eq_refl eq_refl) as [_ Hcomment].
    destruct (Hcomment 1%nat 2%nat Sample.c2 eq_refl) as [Hedit _];
      [simpl; lia | exact Hedit].
Defined.

(** *** The detail view *)

Section PostDetail.

Context (now : Z) (db : DB) (pid : nat) (p : Post) (request : Request).
Context (Hget : get_post_or_404 db pid = inr p).

Lemma post_detail_hidden :
  is_published p = false →
  author_eq (author p) (user request) = false →
  post_detail now pid request db = inl Http404.
Proof.
  intros Hpub Hne. unfold post_detail. rewrite Hget. unfold_monad.
  by rewrite Hpub, Hne.
Qed.

Lemma post_detail_shown_get :
  is_published p = true ∨ author_eq (author p) (user request) = true →
  method request = GET →
  post_detail now pid request db
  = inr (db, Render "blog/detail.html"
               (detail_context p (post_comments db p)
                  (mkCommentForm None None))).
Proof.
  intros Hvis Hm. unfold post_detail. rewrite Hget. unfold_monad.
  assert (negb (is_published p)
          && negb (author_eq (author p) (user request)) = false) as ->
    by (destruct Hvis as [-> | ->]; simpl; by rewrite ?andb_false_r).
  by rewrite Hm.
Qed.

(** A submission with an invalid form re-renders the page with the bound
    form. *)
Lemma post_detail_shown_invalid :
  is_published p = true ∨ author_eq (author p) (user request) = true →
  method request = POST →
  comment_is_valid (mkCommentForm (Some (req_POST request)) None) = false →
  post_detail now pid request db
  = inr (db, Render "blog/detail.html"
               (detail_context p (post_comments db p)
                  (mkCommentForm (Some (req_POST request)) None))).
Proof.
  intros Hvis Hm Hinv. unfold post_detail. rewrite Hget. unfold_monad.
  assert (negb (is_published p)
          && negb (author_eq (author p) (user request)) = false) as ->
    by (destruct Hvis as [-> | ->]; simpl; by rewrite ?andb_false_r).
  by rewrite Hm, Hinv.
Qed.

End PostDetail.

(** C4.  For a post whose [is_published] flag is unset, the detail view
    answers not-found (not forbidden) to the anonymous viewer and to every
    logged-in viewer who is not the author, whatever the method, and
    changes nothing; the author's GET gets the detail page rendered with
    the post and its comments. *)
Theorem C4_unpublished_post_detail
    (now : Z) (db : DB) (pid : nat) (p : Post) (request : Request) :
  get_post_or_404 db pid = inr p →
  is_published p = false →
  (user request = AnonymousUser →
   serve (post_detail now pid) request db = (db, NotFound)) ∧
  (∀ u, user request = LoggedIn u → user_id u ≠ author p →
        serve (post_detail now pid) request db = (db, NotFound)) ∧
  (∀ u, user request = LoggedIn u → user_id u = author p →
        method request = GET →
        serve (post_detail now pid) request db
        = (db, Render "blog/detail.html"
                 (detail_context p (post_comments db p)
                    (mkCommentForm None None)))).
Proof.
  intros Hget Hpub. split; [|split].
  - intros Hanon. unfold serve.
    rewrite (post_detail_hidden now db pid p request Hget Hpub); [done|].
    by rewrite Hanon.
  - intros u Hu Hne. unfold serve.
    rewrite (post_detail_hidden now db pid p request Hget Hpub); [done|].
    rewrite Hu. apply author_eq_logged_in_false. congruence.
  - intros u Hu Heq Hm. unfold serve.
    rewrite (post_detail_shown_get now db pid p request Hget); [done| |done].
    right. rewrite Hu. by apply author_eq_logged_in.
Qed.

Lemma C4_unpublished_post_detail_witness :
  serve (post_detail Sample.now 2) (Sample.get_by AnonymousUser) Sample.db
  = (Sample.db, NotFound) ∧
  serve (post_detail Sample.now 2) (Sample.get_by (LoggedIn Sample.root))
    Sample.db
  = (Sample.db, NotFound) ∧
  serve (post_detail Sample.now 2) (Sample.get_by (LoggedIn Sample.alice))
    Sample.db
  = (Sample.db,
     Render "blog/detail.html"
       (detail_context Sample.p2 [] (mkCommentForm None None))).
Proof.
  split; [|split].
  - apply (C4_unpublished_post_detail Sample.now Sample.db 2 Sample.p2
             (Sample.get_by AnonymousUser) eq_refl eq_refl).
    reflexivity.
  - apply (C4_unpublished_post_detail Sample.now Sample.db 2 Sample.p2
             (Sample.get_by (LoggedIn Sample.root)) eq_refl eq_refl)
      with Sample.root; [reflexivity | simpl; lia].
  - apply (C4_unpublished_post_detail Sample.now Sample.db 2 Sample.p2
             (Sample.get_by (LoggedIn Sample.alice)) eq_refl eq_refl)
      with Sample.alice; reflexivity.
Defined.

(** C10.  For a post whose [is_published] flag is set, a GET of the
    detail view renders the post for every viewer, the anonymous one
    included: neither the category's flag nor the publish time is read.
    Every post [available()] lists is such a post, and the converse
    fails: a post in an unpublished category and a post scheduled for
    later are rendered and are not listed. *)
Theorem C10_published_post_detail :
  (∀ now db pid p request,
     get_post_or_404 db pid = inr p →
     is_published p = true →
     method request = GET →
     serve (post_detail now pid) request db
     = (db, Render "blog/detail.html"
              (detail_context p (post_comments db p)
                 (mkCommentForm None None)))) ∧
  (∀ now db p, In p (PostManager.available db now) → is_published p = true) ∧
  (∃ now db pid p c,
     get_post_or_404 db pid = inr p ∧
     get_category db (category p) = Some c ∧
     category_is_published c = false ∧
     ¬ In p (PostManager.available db now) ∧
     serve (post_detail now pid) (mkRequest AnonymousUser GET ∅ ∅) db
     = (db, Render "blog/detail.html"
              (detail_context p (post_comments db p)
                 (mkCommentForm None None)))) ∧
  (∃ now db pid p,
     get_post_or_404 db pid = inr p ∧
     now < pub_date p ∧
     ¬ In p (PostManager.available db now) ∧
     serve (post_detail now pid) (mkRequest AnonymousUser GET ∅ ∅) db
     = (db, Render "blog/detail.html"
              (detail_context p (post_comments db p)
                 (mkCommentForm None None)))).
Proof.
  split; [|split; [|split]].
  - intros now db pid p request Hget Hpub Hm. unfold serve.
    rewrite (post_detail_shown_get now db pid p request Hget); auto.
  - intros now db p Hin. by apply available_In in Hin as (_ & Hpub & _).
  - exists Sample.now, Sample.db, 3%nat, Sample.p3, Sample.drafts.
    repeat split; try reflexivity.
    intros Hin. apply available_In in Hin as (_ & _ & (c & Hc & Hpub) & _).
    vm_compute in Hc. injection Hc as <-. discriminate.
  - exists Sample.now, Sample.db, 4%nat, Sample.p4.
    repeat split; try reflexivity.
    intros Hin. apply available_In in Hin as (_ & _ & _ & Hle).
    vm_compute in Hle. by apply Hle.
Qed.

(** *** Requests of the anonymous user *)

Section Anonymous.

Context (now : Z) (db : DB) (request : Request).
Context (Hanon : user request = AnonymousUser).

(** The views behind [login_required] and the create view answer with the
    login redirect. *)
Lemma anonymous_login_redirect (pid cid : nat) :
  serve (PostCreateView now) request db = (db, Redirect url_login) ∧
  serve (add_comment now pid) request db = (db, Redirect url_login) ∧
  serve (edit_comment pid cid) request db = (db, Redirect url_login) ∧
  serve (delete_comment pid cid) request db = (db, Redirect url_login).
Proof.
  unfold serve, PostCreateView, add_comment, edit_comment, delete_comment,
    login_required, login_required_dispatch, access_handle_no_permission.
  rewrite Hanon. simpl. done.
Qed.

(** Post edit and post delete answer with the mixin's redirect to the
    post's page, not with the login redirect. *)
Lemma anonymous_post_edit_delete (pid : nat) (p : Post) :
  get_post_or_404 db pid = inr p →
  serve (PostEditView pid) request db = (db, Redirect (url_post_detail pid)) ∧
  serve (PostDeleteView pid) request db = (db, Redirect (url_post_detail pid)).
Proof.
  intros Hget. unfold serve, PostEditView, PostDeleteView.
  rewrite !(guarded_anonymous db pid p request Hget) by (by rewrite Hanon).
  done.
Qed.

(** A valid comment submitted to the detail view of a visible post
    reaches the assignment of the author and fails there. *)
Lemma anonymous_post_detail_comment (pid : nat) (p : Post) :
  get_post_or_404 db pid = inr p →
  is_published p = true →
  method request = POST →
  comment_is_valid (mkCommentForm (Some (req_POST request)) None) = true →
  serve (post_detail now pid) request db = (db, ServerError).
Proof.
  intros Hget Hpub Hm Hvalid. unfold serve, post_detail.
  rewrite Hget. unfold_monad. rewrite Hpub, Hm, Hvalid, Hanon. done.
Qed.

(** No handler changes the store on a request of the anonymous user. *)
Lemma anonymous_changes_nothing (pid cid : nat) :
  fst (serve (PostCreateView now) request db) = db ∧
  fst (serve (PostEditView pid) request db) = db ∧
  fst (serve (PostDeleteView pid) request db) = db ∧
  fst (serve (add_comment now pid) request db) = db ∧
  fst (serve (edit_comment pid cid) request db) = db ∧
  fst (serve (delete_comment pid cid) request db) = db ∧
  fst (serve (post_detail now pid) request db) = db.
Proof.
  destruct (anonymous_login_redirect pid cid) as (-> & -> & -> & ->).
  repeat split; try done.
  - unfold serve, PostEditView, login_required_dispatch,
      only_author_handle_no_permission.
    rewrite Hanon. simpl. unfold_monad.
    by destruct (get_post_or_404 db pid) as [[]|].
  - unfold serve, PostDeleteView, login_required_dispatch,
      only_author_handle_no_permission.
    rewrite Hanon. simpl. unfold_monad.
    by destruct (get_post_or_404 db pid) as [[]|].
  - unfold serve, post_detail. unfold_monad. rewrite Hanon.
    destruct (get_post_or_404 db pid) as [[]|p]; try done.
    destruct (negb (is_published p) && _); [done|].
    destruct (method request); [done|].
    by destruct (comment_is_valid _).
Qed.

End Anonymous.

(** C6, evaluated.  The anonymous user posts a comment to the detail view
    of post 1: nothing is stored and the answer is a server error, not the
    login redirect.  The anonymous user posts to the edit and delete views
    of post 1: nothing is stored and the answer is the redirect to the
    post's page, not the login redirect.  The same comment posted to
    [add_comment] is answered with the login redirect. *)
Theorem C6_anonymous_requests_evaluated :
  serve (post_detail Sample.now 1)
    (Sample.post_by AnonymousUser [("text", "hi")]) Sample.db
  = (Sample.db, ServerError) ∧
  serve (PostEditView 1)
    (Sample.post_by AnonymousUser [("title", "taken over")]) Sample.db
  = (Sample.db, Redirect (url_post_detail 1)) ∧
  serve (PostDeleteView 1) (Sample.post_by AnonymousUser []) Sample.db
  = (Sample.db, Redirect (url_post_detail 1)) ∧
  serve (add_comment Sample.now 1)
    (Sample.post_by AnonymousUser [("text", "hi")]) Sample.db
  = (Sample.db, Redirect url_login).
Proof.
  split; [|split; [|split]].
  - apply anonymous_post_detail_comment with Sample.p1; reflexivity.
  - apply (anonymous_post_edit_delete Sample.db
             (Sample.post_by AnonymousUser [("title", "taken over")])
             eq_refl 1 Sample.p1 eq_refl).
  - apply (anonymous_post_edit_delete Sample.db
             (Sample.post_by AnonymousUser []) eq_refl 1 Sample.p1 eq_refl).
  - apply (anonymous_login_redirect Sample.now Sample.db
             (Sample.post_by AnonymousUser [("text", "hi")]) eq_refl 1 0).
Qed.

(** *** Submitted comments *)

Lemma empty_text_invalid (d : gmap string string) :
  d !! "text" = Some "" →
  comment_is_valid (mkCommentForm (Some d) None) = false ∧
  comment_errors (mkCommentForm (Some d) None) = ["text"].
Proof.
  intros Ht. unfold comment_is_valid, comment_errors, required. simpl.
  rewrite Ht. simpl. done.
Qed.

(** C7 (as the code has it).  A logged-in user submits a comment whose
    text is empty: no comment row is created.  [add_comment] answers with
    the redirect to the post's detail page and renders no form; the same
    submission to the detail view of a post the user may see re-renders
    the detail page with the bound form, which carries the error on
    [text]. *)
Theorem C7_empty_comment
    (now : Z) (db : DB) (pid : nat) (p : Post) (request : Request) (u : User) :
  user request = LoggedIn u →
  method request = POST →
  body request !! "text" = Some "" →
  get_post_or_404 db pid = inr p →
  serve (add_comment now pid) request db
  = (db, Redirect (url_post_detail pid)) ∧
  (is_published p = true ∨ author p = user_id u →
   serve (post_detail now pid) request db
   = (db, Render "blog/detail.html"
            (detail_context p (post_comments db p)
               (mkCommentForm (Some (body request)) None))) ∧
   comment_errors (mkCommentForm (Some (body request)) None) = ["text"]).
Proof.
  intros Hu Hm Ht Hget.
  destruct (empty_text_invalid _ Ht) as [Hinv Herr].
  assert (HP : req_POST request = body request)
    by (unfold req_POST; by rewrite Hm).
  split.
  - unfold serve, add_comment, login_required.
    rewrite Hu, Hget. simpl. unfold_monad. by rewrite HP, Hinv.
  - intros Hvis. split; [|done]. unfold serve.
    rewrite (post_detail_shown_invalid now db pid p request Hget);
      rewrite ?HP; try done.
    destruct Hvis as [Hpub | Ha]; [by left | right].
    rewrite Hu. by apply author_eq_logged_in.
Qed.

Lemma C7_empty_comment_witness :
  serve (add_comment Sample.now 1)
    (Sample.post_by (LoggedIn Sample.bob) [("text", "")]) Sample.db
  = (Sample.db, Redirect (url_post_detail 1)).
Proof.
  apply (C7_empty_comment Sample.now Sample.db 1 Sample.p1
           (Sample.post_by (LoggedIn Sample.bob) [("text", "")]) Sample.bob);
    reflexivity.
Defined.

(** C7, as stated, fails on [add_comment]: [bob] submits an empty comment
    on post 1 and the answer is a redirect; no template is rendered, so no
    form and no error annotation reach the user. *)
Lemma C7_add_comment_counterexample :
  body (Sample.post_by (LoggedIn Sample.bob) [("text", "")]) !! "text"
  = Some "" ∧
  serve (add_comment Sample.now 1)
    (Sample.post_by (LoggedIn Sample.bob) [("text", "")]) Sample.db
  = (Sample.db, Redirect (url_post_detail 1)) ∧
  ¬ (∃ template context,
       snd (serve (add_comment Sample.now 1)
              (Sample.post_by (LoggedIn Sample.bob) [("text", "")]) Sample.db)
       = Render template context).
Proof.
  split; [reflexivity|]. split; [reflexivity|].
  intros (template & context & H). vm_compute in H. discriminate.
Qed.

(** *** Creation *)

Section ClientAuthor.

(** Two submitted forms that differ at most in the [author] key. *)
Context (d1 d2 : gmap string string).
Context (Hagree : ∀ k : string, k ≠ "author" → d1 !! k = d2 !! k).

Lemma required_agree (k : string) :
  k ≠ "author" → required d1 k = required d2 k.
Proof. intros Hk. unfold required. by rewrite (Hagree k Hk). Qed.

Lemma nat_field_agree (k : string) :
  k ≠ "author" → nat_field d1 k = nat_field d2 k.
Proof. intros Hk. unfold nat_field. by rewrite (required_agree k Hk). Qed.

Lemma comment_is_valid_agree :
  comment_is_valid (mkCommentForm (Some d1) None)
  = comment_is_valid (mkCommentForm (Some d2) None).
Proof.
  unfold comment_is_valid, comment_errors. simpl.
  by rewrite (required_agree "text").
Qed.

Lemma comment_text_agree :
  comment_text (comment_save_commit_false (mkCommentForm (Some d1) None))
  = comment_text (comment_save_commit_false (mkCommentForm (Some d2) None)).
Proof. simpl. by rewrite (required_agree "text"). Qed.

Lemma post_is_valid_agree (db : DB) :
  post_is_valid db (mkPostForm (Some d1) None)
  = post_is_valid db (mkPostForm (Some d2) None).
Proof.
  unfold post_is_valid, post_errors, post_field_ok. simpl.
  rewrite (required_agree "title"), (required_agree "text"),
    (required_agree "pub_date"), (nat_field_agree "category") by done.
  reflexivity.
Qed.

(** The instances differ at most in the author the client named. *)
Lemma post_construct_instance_agree :
  let i1 := post_construct_instance (mkPostForm (Some d1) None) in
  let i2 := post_construct_instance (mkPostForm (Some d2) None) in
  title i1 = title i2 ∧ text i1 = text i2 ∧ pub_date i1 = pub_date i2 ∧
  is_published i1 = is_published i2 ∧ category i1 = category i2 ∧
  location i1 = location i2.
Proof.
  simpl.
  rewrite (required_agree "title"), (required_agree "text"),
    (required_agree "pub_date"), (nat_field_agree "category"),
    (nat_field_agree "location"), (Hagree "is_published") by done.
  done.
Qed.

End ClientAuthor.

Lemma post_form_valid_is_post (db : DB) (request : Request) :
  post_is_valid db (mkPostForm (Some (req_POST request)) None) = true →
  method request = POST.
Proof.
  unfold req_POST. destruct (method request); [|done].
  intros H. vm_compute in H. discriminate.
Qed.

Lemma post_create_store_agree (now : Z) (db : DB) (r1 r2 : Request) :
  user r1 = user r2 →
  method r1 = method r2 →
  (∀ k : string, k ≠ "author" → body r1 !! k = body r2 !! k) →
  fst (serve (PostCreateView now) r1 db) = fst (serve (PostCreateView now) r2 db).
Proof.
  intros Hu Hm Hagree.
  unfold serve, PostCreateView, login_required_dispatch,
    access_handle_no_permission, post_create_form_valid, req_POST.
  rewrite Hu, Hm.
  destruct (is_authenticated (user r2)); simpl; [|done].
  destruct (method r2); [done|].
  rewrite (post_is_valid_agree _ _ Hagree).
  destruct (post_is_valid db _); [|done].
  destruct (set_author (user r2)) as [[]|a]; unfold_monad; simpl; try done.
  destruct (post_construct_instance_agree _ _ Hagree)
    as (Ht & Hx & Hd & Hp & Hc & Hl).
  simpl in Ht, Hx, Hd, Hp, Hc, Hl. unfold_monad.
  by rewrite Ht, Hx, Hd, Hp, Hc, Hl.
Qed.

Lemma comment_create_store_agree (now : Z) (db : DB) (pid : nat)
    (r1 r2 : Request) :
  user r1 = user r2 →
  method r1 = method r2 →
  (∀ k : string, k ≠ "author" → body r1 !! k = body r2 !! k) →
  fst (serve (add_comment now pid) r1 db)
  = fst (serve (add_comment now pid) r2 db) ∧
  fst (serve (post_detail now pid) r1 db)
  = fst (serve (post_detail now pid) r2 db).
Proof.
  intros Hu Hm Hagree.
  assert (HP : ∀ k : string, k ≠ "author" →
                 req_POST r1 !! k = req_POST r2 !! k).
  { unfold req_POST. rewrite Hm. by destruct (method r2). }
  split.
  - unfold serve, add_comment, login_required. rewrite Hu.
    destruct (is_authenticated (user r2)); [|done].
    destruct (get_post_or_404 db pid) as [[]|p]; unfold_monad; try done.
    rewrite (comment_is_valid_agree _ _ HP).
    destruct (comment_is_valid _); [|done].
    destruct (set_author (user r2)) as [[]|a]; try done.
    by rewrite (comment_text_agree _ _ HP).
  - unfold serve, post_detail. rewrite Hu, Hm.
    destruct (get_post_or_404 db pid) as [[]|p]; unfold_monad; try done.
    destruct (negb (is_published p) && _); [done|].
    destruct (method r2); [done|].
    rewrite (comment_is_valid_agree _ _ HP).
    destruct (comment_is_valid _); [|done].
    destruct (set_author (user r2)) as [[]|a]; try done.
    by rewrite (comment_text_agree _ _ HP).
Qed.

(** C9.  A logged-in user's valid post form creates one post, authored by
    that user; a valid comment form sent to [add_comment], or to the
    detail view of a post the user may see, creates one comment on that
    post, authored by that user.  A request that differs only in the
    [author] key of the submitted form leaves the same store behind. *)
Theorem C9_author_is_acting_user
    (now : Z) (db : DB) (request : Request) (u : User) :
  user request = LoggedIn u →
  (post_is_valid db (mkPostForm (Some (req_POST request)) None) = true →
   ∃ created,
     serve (PostCreateView now) request db
     = (mkDB (users db) (categories db) (posts db ++ [created]) (comments db),
        Redirect (url_profile (username u))) ∧
     author created = user_id u) ∧
  (∀ pid p,
     get_post_or_404 db pid = inr p →
     comment_is_valid (mkCommentForm (Some (req_POST request)) None) = true →
     ∃ created,
       comment_author created = user_id u ∧
       comment_post created = pid ∧
       serve (add_comment now pid) request db
       = (mkDB (users db) (categories db) (posts db)
            (comments db ++ [created]),
          Redirect (url_post_detail pid)) ∧
       (is_published p = true ∨ author p = user_id u →
        serve (post_detail now pid) request db
        = (mkDB (users db) (categories db) (posts db)
             (comments db ++ [created]),
           Redirect (url_post_detail pid)))) ∧
  (∀ request',
     user request' = user request →
     method request' = method request →
     (∀ k : string, k ≠ "author" → body request' !! k = body request !! k) →
     fst (serve (PostCreateView now) request' db)
     = fst (serve (PostCreateView now) request db) ∧
     ∀ pid,
       fst (serve (add_comment now pid) request' db)
       = fst (serve (add_comment now pid) request db) ∧
       fst (serve (post_detail now pid) request' db)
       = fst (serve (post_detail now pid) request db)).
Proof.
  intros Hu. split; [|split].
  - intros Hvalid.
    pose proof (post_form_valid_is_post db request Hvalid) as Hm.
    unfold serve, PostCreateView, login_required_dispatch,
      post_create_form_valid.
    rewrite Hu, Hm. simpl. rewrite Hvalid. unfold_monad. simpl.
    eexists. split; [reflexivity | reflexivity].
  - intros pid p Hget Hvalid.
    destruct (get_post_or_404_inv _ _ _ Hget) as [_ Hid].
    eexists (mkComment _ _ pid (user_id u) now).
    split; [reflexivity|]. split; [reflexivity|]. split.
    + unfold serve, add_comment, login_required.
      rewrite Hu, Hget. simpl. unfold_monad. rewrite Hvalid. simpl.
      rewrite Hid. reflexivity.
    + intros Hvis. unfold serve, post_detail.
      rewrite Hget. unfold_monad.
      assert (negb (is_published p)
              && negb (author_eq (author p) (user request)) = false) as ->.
      { destruct Hvis as [-> | Ha]; [done|].
        rewrite Hu. simpl. rewrite Ha, Nat.eqb_refl. by rewrite andb_false_r. }
      assert (Hm : method request = POST).
      { revert Hvalid. unfold req_POST. destruct (method request); [|done].
        intros H. vm_compute in H. discriminate. }
      rewrite Hm, Hvalid, Hu. simpl. rewrite Hid. reflexivity.
  - intros request' Hu' Hm' Hagree. split.
    + by apply post_create_store_agree.
    + intros pid. by apply comment_create_store_agree.
Qed.

Lemma C9_author_is_acting_user_witness :
  ∃ created,
    comment_author created = user_id Sample.bob ∧
    serve (add_comment Sample.now 1)
      (Sample.post_by (LoggedIn Sample.bob) [("text", "yo"); ("author", "1")])
      Sample.db
    = (mkDB (users Sample.db) (categories Sample.db) (posts Sample.db)
         (comments Sample.db ++ [created]),
       Redirect (url_post_detail 1)).
Proof.
  destruct (C9_author_is_acting_user Sample.now Sample.db
              (Sample.post_by (LoggedIn Sample.bob)
                 [("text", "yo"); ("author", "1")])
              Sample.bob eq_refl) as (_ & Hcomment & _).
  destruct (Hcomment 1%nat Sample.p1 eq_refl eq_refl)
    as (created & Ha & _ & Hs & _).
  exists created. split; assumption.
Defined.

(** * Further properties of the code *)

(** ** Composition of the queryset filters *)

Lemma filter_swap {A} (f g : A → bool) (l : list A) :
  List.filter f (List.filter g l) = List.filter g (List.filter f l).
Proof.
  induction l as [|x l IH]; simpl; [done|].
  destruct (f x) eqn:Ef, (g x) eqn:Eg; simpl; rewrite ?Ef, ?Eg, IH; done.
Qed.

Lemma filter_twice {A} (f : A → bool) (l : list A) :
  List.filter f (List.filter f l) = List.filter f l.
Proof.
  induction l as [|x l IH]; simpl; [done|].
  destruct (f x) eqn:Ef; simpl; rewrite ?Ef, IH; done.
Qed.

Lemma filter_sublist {A} (f : A → bool) (l : list A) :
  sublist (List.filter f l) l.
Proof.
  induction l as [|x l IH]; simpl; [constructor|].
  destruct (f x); by constructor.
Qed.

Lemma filter_and {A} (f g : A → bool) (l : list A) :
  List.filter f (List.filter g l) = List.filter (fun x => g x && f x) l.
Proof.
  induction l as [|x l IH]; simpl; [done|].
  destruct (g x) eqn:Eg; simpl; [|exact IH].
  destruct (f x); by rewrite IH.
Qed.

(** Chains of the three filters are compared through the conjunction
    they test. *)
Ltac same_filter db now :=
  rewrite !filter_and; apply List.filter_ext;
  let p := fresh "p" in
  intros p; simpl;
  destruct (get_category db (category p)) as [[? ? []]|];
  destruct (is_published p); destruct (pub_date p <=? now); reflexivity.

(** X1.  The three filters of [PostQuerySet] commute: [available()] is the
    same queryset whatever the order in which [category_published],
    [published] and [published_up_to_now] are chained; the five orders
    other than its own are listed. *)
Theorem available_any_order (db : DB) (now : Z) (self : list Post) :
  PostQuerySet.available db now self
  = PostQuerySet.category_published db
      (PostQuerySet.published (PostQuerySet.published_up_to_now now self)) ∧
  PostQuerySet.available db now self
  = PostQuerySet.published
      (PostQuerySet.published_up_to_now now
         (PostQuerySet.category_published db self)) ∧
  PostQuerySet.available db now self
  = PostQuerySet.category_published db
      (PostQuerySet.published_up_to_now now (PostQuerySet.published self)) ∧
  PostQuerySet.available db now self
  = PostQuerySet.published
      (PostQuerySet.category_published db
         (PostQuerySet.published_up_to_now now self)) ∧
  PostQuerySet.available db now self
  = PostQuerySet.published_up_to_now now
      (PostQuerySet.category_published db (PostQuerySet.published self)).
Proof.
  unfold PostQuerySet.available, PostQuerySet.category_published,
    PostQuerySet.published, PostQuerySet.published_up_to_now.
  repeat split; same_filter db now.
Qed.

Lemma available_sublist (db : DB) (now : Z) (self : list Post) :
  sublist (PostQuerySet.available db now self) self.
Proof.
  unfold PostQuerySet.available, PostQuerySet.category_published,
    PostQuerySet.published, PostQuerySet.published_up_to_now.
  etrans; [apply filter_sublist|].
  etrans; [apply filter_sublist|]. apply filter_sublist.
Qed.

(** X2.  [available()] keeps the rows in the order of the queryset it is
    applied to, and applying it to its own result changes nothing. *)
Theorem available_keeps_order (db : DB) (now : Z) (self : list Post) :
  sublist (PostQuerySet.available db now self) self ∧
  PostQuerySet.available db now (PostQuerySet.available db now self)
  = PostQuerySet.available db now self.
Proof.
  unfold PostQuerySet.available, PostQuerySet.category_published,
    PostQuerySet.published, PostQuerySet.published_up_to_now.
  split.
  - etrans; [apply filter_sublist|].
    etrans; [apply filter_sublist|]. apply filter_sublist.
  - same_filter db now.
Qed.

(** ** Pages *)

Section Pages.

Context {A : Type} (queryset : list A).

Local Abbreviation paginator := (Paginator.new queryset POSTS_PER_PAGE).
Local Abbreviation last_page := (Paginator.num_pages paginator).
Local Abbreviation total := (Z.of_nat (List.length queryset)).

(** The number of pages is the least that holds every item, and 1 for an
    empty collection. *)
Lemma num_pages_bounds :
  10 * (last_page - 1) < Z.max 1 total <= 10 * last_page.
Proof.
  unfold Paginator.num_pages, Paginator.new, POSTS_PER_PAGE,
    Paginator.count. simpl.
  rewrite andb_false_r, Z.sub_0_r.
  set (hits := Z.max 1 _).
  pose proof (Z_div_mod_eq_full (- hits) 10).
  pose proof (Z.mod_pos_bound (- hits) 10 ltac:(lia)).
  lia.
Qed.

Lemma page_lookup (n : Z) (j : nat) :
  1 <= n → (j < 10)%nat →
  take 10 (drop (Z.to_nat ((n - 1) * 10)) queryset) !! j
  = queryset !! (Z.to_nat ((n - 1) * 10) + j)%nat.
Proof.
  intros Hn Hj. rewrite lookup_take_lt by done. by rewrite lookup_drop.
Qed.

Lemma page_of_index_in_range (i : nat) :
  (i < List.length queryset)%nat →
  1 <= Z.of_nat i / 10 + 1 <= last_page.
Proof.
  intros Hi. pose proof num_pages_bounds.
  pose proof (Z_div_mod_eq_full (Z.of_nat i) 10).
  pose proof (Z.mod_pos_bound (Z.of_nat i) 10 ltac:(lia)).
  lia.
Qed.

End Pages.

(** X3.  Every item of the collection can be reached: the item at index
    [i] is on page [i / 10 + 1], a page within range, at position
    [i mod 10], whenever the request's [page] parameter reads as that
    number. *)
Theorem every_item_is_on_its_page {A : Type}
    (queryset : list A) (request : Request) (i : nat) (x : A) :
  queryset !! i = Some x →
  Python.int (Python.get (req_GET request) "page")
  = Some (Z.of_nat i / 10 + 1) →
  ∃ page,
    paginate_queryset queryset request = inr page ∧
    Paginator.number page = Z.of_nat i / 10 + 1 ∧
    Paginator.page_object_list page !! (i mod 10)%nat = Some x.
Proof.
  intros Hx Hpage.
  assert (Hi : (i < List.length queryset)%nat) by by eapply lookup_lt_Some.
  pose proof (page_of_index_in_range queryset i Hi) as Hr.
  pose proof (settled_in_range queryset _ _ Hpage Hr) as Hs.
  pose proof (Nat.mod_upper_bound i 10 ltac:(lia)) as Hmod.
  eexists. split; [apply paginate_queryset_ok|].
  cbn [Paginator.number Paginator.page_object_list]. rewrite Hs.
  split; [done|].
  rewrite page_lookup; [| lia | exact Hmod].
  rewrite <- Hx. f_equal.
  replace (Z.of_nat i / 10 + 1 - 1) with (Z.of_nat i / 10) by lia.
  pose proof (Nat.div_mod_eq i 10).
  assert (Z.to_nat (Z.of_nat i / 10 * 10) = (10 * (i / 10))%nat).
  { rewrite <- (Nat2Z.id (10 * (i / 10))).
    f_equal. rewrite Nat2Z.inj_mul, Nat2Z.inj_div. simpl. lia. }
  lia.
Qed.

Lemma every_item_is_on_its_page_witness :
  ∃ page,
    paginate_queryset (seq 0 25)
      (mkRequest AnonymousUser GET {[ "page" := "2" ]} ∅) = inr page ∧
    Paginator.number page = 2 ∧
    Paginator.page_object_list page !! 3%nat = Some 13%nat.
Proof.
  apply (every_item_is_on_its_page (seq 0 25)
           (mkRequest AnonymousUser GET {[ "page" := "2" ]} ∅) 13 13%nat);
    reflexivity.
Defined.

(** X4.  The helper never serves a blank page of a collection that has
    items: the page it returns is empty only when the collection is. *)
Theorem page_is_empty_only_for_empty_collection {A : Type}
    (queryset : list A) (request : Request) :
  ∃ page,
    paginate_queryset queryset request = inr page ∧
    (Paginator.page_object_list page = [] ↔ queryset = []).
Proof.
  eexists. split; [apply paginate_queryset_ok|]. simpl.
  set (n := Paginator.settled_number _ _).
  pose proof (settled_number_range queryset
                (Python.get (req_GET request) "page")) as Hr.
  fold n in Hr. pose proof (num_pages_bounds queryset) as Hb.
  split.
  - intros Hnil. destruct queryset as [|a l]; [done|]. exfalso.
    assert (Hlen : List.length
                     (take 10 (drop (Z.to_nat ((n - 1) * 10)) (a :: l)))
                   = 0%nat) by by rewrite Hnil.
    rewrite length_take, length_drop in Hlen.
    assert (Z.max 1 (Z.of_nat (List.length (a :: l)))
            = Z.of_nat (List.length (a :: l))) by (simpl; lia).
    lia.
  - intros ->. by rewrite drop_nil.
Qed.

(** X5.  The page's navigation flags tell the truth about the collection:
    [has_next] holds exactly when items remain after the page, and
    [has_previous] exactly when the page is not the first. *)
Theorem page_flags_match_collection {A : Type}
    (queryset : list A) (request : Request) :
  ∃ page,
    paginate_queryset queryset request = inr page ∧
    (Paginator.has_next page = true ↔
     10 * Paginator.number page < Z.of_nat (List.length queryset)) ∧
    (Paginator.has_previous page = true ↔ 1 < Paginator.number page) ∧
    (Paginator.has_previous page = true →
     (10 <= List.length queryset)%nat).
Proof.
  eexists. split; [apply paginate_queryset_ok|].
  unfold Paginator.has_next, Paginator.has_previous. simpl.
  set (n := Paginator.settled_number _ _).
  pose proof (settled_number_range queryset
                (Python.get (req_GET request) "page")) as Hr.
  fold n in Hr. pose proof (num_pages_bounds queryset) as Hb.
  rewrite Z.ltb_lt, Z.gtb_gt.
  repeat split; intros; lia.
Qed.

(** ** The listing views *)

Lemma page_items_in_collection {A : Type} (queryset : list A) (n : nat) :
  sublist (take 10 (drop n queryset)) queryset.
Proof. etrans; [apply sublist_take | apply sublist_drop]. Qed.

Lemma sublist_In {A : Type} (l1 l2 : list A) (x : A) :
  sublist l1 l2 → In x l1 → In x l2.
Proof.
  intros Hs Hin. apply list_elem_of_In. apply list_elem_of_In in Hin.
  by apply (sublist_subseteq _ _ Hs).
Qed.

(** X6.  The index view always renders, changes nothing, and lists at most
    ten posts, every one of them available, in the order the store holds
    them; each listed post has one comment count beside it. *)
Theorem index_lists_available_posts (now : Z) (request : Request) (db : DB) :
  ∃ page_obj comment_count,
    serve (index now) request db
    = (db, Render "blog/index.html" (index_context page_obj comment_count)) ∧
    (List.length (Paginator.page_object_list page_obj) <= 10)%nat ∧
    sublist (Paginator.page_object_list page_obj) (posts db) ∧
    fst <$> comment_count = Paginator.page_object_list page_obj ∧
    ∀ p, In p (Paginator.page_object_list page_obj) →
         is_published p = true ∧
         pub_date p <= now ∧
         ∃ c, get_category db (category p) = Some c
              ∧ category_is_published c = true.
Proof.
  unfold serve, index. rewrite paginate_queryset_ok.
  cbn [mbind exn_bind mret exn_ret Paginator.page_object_list].
  eexists _, _. split; [reflexivity|].
  cbn [Paginator.page_object_list].
  set (n := Z.to_nat _).
  assert (Hsub : sublist (take 10 (drop n (PostManager.available db now)))
                   (PostManager.available db now))
    by apply page_items_in_collection.
  split; [rewrite length_take; lia|].
  split; [|split].
  - etrans; [exact Hsub|]. apply available_sublist.
  - rewrite <- list_fmap_compose. apply list_fmap_id.
  - intros p Hin. apply (sublist_In _ _ _ Hsub) in Hin.
    apply available_In in Hin as (_ & Hpub & Hcat & Hdate). auto.
Qed.

(** X7.  The category view answers not-found when no published category
    has the slug, unpublished ones included.  Otherwise it changes nothing
    and renders the first published category with the slug, listing at
    most ten posts: each belongs to that category, is available, and is
    listed in the order the store holds it. *)
Theorem category_page_lists_its_available_posts
    (now : Z) (category_slug : string) (request : Request) (db : DB) :
  ((∀ c, In c (categories db) → slug c = category_slug →
         category_is_published c = false) →
   serve (category_posts now category_slug) request db = (db, NotFound)) ∧
  (∀ c, In c (categories db) → slug c = category_slug →
        category_is_published c = true →
        ∃ category page_obj,
          serve (category_posts now category_slug) request db
          = (db, Render "blog/category.html"
                   (category_context category page_obj)) ∧
          In category (categories db) ∧
          slug category = category_slug ∧
          category_is_published category = true ∧
          (List.length (Paginator.page_object_list page_obj) <= 10)%nat ∧
          sublist (Paginator.page_object_list page_obj) (posts db) ∧
          ∀ p, In p (Paginator.page_object_list page_obj) →
               Models.category p = category_id category ∧
               In p (PostManager.available db now)).
Proof.
  split.
  - intros Hnone. unfold serve, category_posts, get_object_or_404.
    destruct (List.find _ (categories db)) as [c|] eqn:E; [|done].
    apply find_some in E as [Hin Htest].
    apply andb_true_iff in Htest as [Hslug Hpub].
    apply String.eqb_eq in Hslug.
    rewrite (Hnone c Hin Hslug) in Hpub. discriminate.
  - intros c Hin Hslug Hpub.
    unfold serve, category_posts, get_object_or_404.
    destruct (List.find _ (categories db)) as [category|] eqn:E.
    + apply find_some in E as [Hin' Htest].
      apply andb_true_iff in Htest as [Hslug' Hpub'].
      apply String.eqb_eq in Hslug'.
      cbn [mbind exn_bind]. rewrite paginate_queryset_ok.
      cbn [mbind exn_bind mret exn_ret].
      eexists _, _. split; [reflexivity|].
      cbn [Paginator.page_object_list].
      set (n := Z.to_nat _).
      set (mine := List.filter _ (posts db)).
      assert (Hsub : sublist (take 10 (drop n (PostQuerySet.available db now mine)))
                       (PostQuerySet.available db now mine))
        by apply page_items_in_collection.
      repeat split; try done.
      * rewrite length_take; lia.
      * etrans; [exact Hsub|]. etrans; [apply available_sublist|].
        apply filter_sublist.
      * apply (sublist_In _ _ _ Hsub) in H.
        apply available_In in H as (Hmine & _).
        apply filter_In in Hmine as [_ Hcat]. by apply Nat.eqb_eq.
      * apply (sublist_In _ _ _ Hsub) in H.
        apply available_In in H as (Hmine & Hrest).
        apply filter_In in Hmine as [Hp _].
        apply available_In. by split.
    + exfalso. apply (find_none _ _ E) in Hin.
      by rewrite Hslug, String.eqb_refl, Hpub in Hin.
Qed.

(** X8.  A request that names a post key that fits the key column and is
    not stored is answered not-found and changes nothing: by the detail,
    edit and delete views for every user, and by [add_comment] for every
    logged-in user, valid form or not.  The same holds for the comment
    views and a comment key that fits the column and is not stored. *)
Theorem missing_resource_is_not_found (now : Z) (request : Request) (db : DB) :
  (∀ pid, Site.fits_key_column pid → ¬ In pid (post_id <$> posts db) →
     serve (post_detail now pid) request db = (db, NotFound) ∧
     serve (PostEditView pid) request db = (db, NotFound) ∧
     serve (PostDeleteView pid) request db = (db, NotFound) ∧
     (is_authenticated (user request) = true →
      serve (add_comment now pid) request db = (db, NotFound))) ∧
  (∀ pid cid, Site.fits_key_column cid →
     ¬ In cid (comment_id <$> comments db) →
     is_authenticated (user request) = true →
     serve (edit_comment pid cid) request db = (db, NotFound) ∧
     serve (delete_comment pid cid) request db = (db, NotFound)).
Proof.
  split.
  - intros pid _ Hmiss.
    assert (Hget : get_post_or_404 db pid = inl Http404).
    { unfold get_post_or_404, get_object_or_404.
      destruct (List.find _ (posts db)) as [p|] eqn:E; [|done].
      apply find_some in E as [Hin Hid]. apply Nat.eqb_eq in Hid.
      exfalso. apply Hmiss. rewrite <- Hid. by apply (in_map post_id). }
    unfold serve, post_detail, PostEditView, PostDeleteView, add_comment,
      login_required_dispatch, user_passes_test_dispatch, test_func,
      only_author_handle_no_permission, login_required.
    rewrite Hget. cbn [mbind exn_bind mret exn_ret].
    repeat split.
    + by destruct (negb (is_authenticated (user request))).
    + by destruct (negb (is_authenticated (user request))).
    + by intros ->.
  - intros pid cid _ Hmiss Hauth.
    assert (Hget : get_object_or_404 (comments db)
                     (fun c => Nat.eqb (comment_id c) cid) = inl Http404).
    { unfold get_object_or_404.
      destruct (List.find _ (comments db)) as [c|] eqn:E; [|done].
      apply find_some in E as [Hin Hid]. apply Nat.eqb_eq in Hid.
      exfalso. apply Hmiss. rewrite <- Hid. by apply (in_map comment_id). }
    unfold serve, edit_comment, delete_comment, login_required.
    by rewrite Hauth, Hget.
Qed.

Lemma missing_resource_is_not_found_witness :
  serve (post_detail Sample.now 77) (Sample.get_by AnonymousUser) Sample.db
  = (Sample.db, NotFound) ∧
  serve (delete_comment 1 77) (Sample.post_by (LoggedIn Sample.bob) [])
    Sample.db
  = (Sample.db, NotFound).
Proof.
  split.
  - destruct (missing_resource_is_not_found Sample.now
                (Sample.get_by AnonymousUser) Sample.db) as [Hpost _].
    apply (Hpost 77%nat); [reflexivity|].
    simpl. intuition discriminate.
  - destruct (missing_resource_is_not_found Sample.now
                (Sample.post_by (LoggedIn Sample.bob) []) Sample.db)
      as [_ Hcomment].
    apply (Hcomment 1%nat 77%nat); [reflexivity | | reflexivity].
    simpl. intuition discriminate.
Defined.

(** ** What the mutating views write *)

Lemma replace_keeps_keys {A : Type} (key : A → nat) (y : A) (l : list A) :
  key <$> ((fun x => if Nat.eqb (key x) (key y) then y else x) <$> l)
  = key <$> l.
Proof.
  rewrite <- list_fmap_compose. apply list_fmap_ext.
  intros i x _. cbn. destruct (Nat.eqb (key x) (key y)) eqn:E; [|done].
  by apply Nat.eqb_eq in E.
Qed.

(** X9.  Whatever the author of a comment sends to [edit_comment], at
    most the comment with that key changes: no comment is added, removed
    or given another key, comments with other keys are as they were, and
    the other tables are untouched; a request whose form is absent or not
    valid changes nothing at all. *)
Theorem edit_comment_touches_one_row
    (db : DB) (pid cid : nat) (c : Comment) (u : User) (request : Request) :
  user request = LoggedIn u →
  get_object_or_404 (comments db) (fun x => Nat.eqb (comment_id x) cid)
  = inr c →
  comment_author c = user_id u →
  let db' := fst (serve (edit_comment pid cid) request db) in
  users db' = users db ∧
  categories db' = categories db ∧
  posts db' = posts db ∧
  comment_id <$> comments db' = comment_id <$> comments db ∧
  (∀ x, comment_id x ≠ cid → In x (comments db') ↔ In x (comments db)) ∧
  (comment_is_valid (mkCommentForm (POST_or_None request) (Some c)) = false →
   db' = db).
Proof.
  intros Hu Hget Ha db'.
  destruct (get_object_or_404_inv _ _ _ Hget) as [_ Hid].
  apply Nat.eqb_eq in Hid.
  assert (Heq : author_eq (comment_author c) (user request) = true)
    by (rewrite Hu; by apply author_eq_logged_in).
  subst db'. unfold serve, edit_comment, login_required.
  rewrite Hu, Hget. cbn [is_authenticated mbind exn_bind mret exn_ret].
  rewrite <- Hu, Heq. cbn [negb].
  set (form := mkCommentForm (POST_or_None request) (Some c)).
  destruct (comment_is_valid form); [|cbn [fst]; by repeat split].
  cbn [fst]. set (saved := comment_save_commit_false form).
  assert (Hsaved : comment_id saved = cid) by (subst saved; by cbn).
  unfold update_comment. cbn [users categories posts comments].
  split; [done|]. split; [done|]. split; [done|].
  split; [apply (replace_keeps_keys comment_id saved)|].
  split; [|done].
  intros x Hne. split.
  - intros Hx. apply in_map_iff in Hx as (y & Hy & Hin).
    destruct (Nat.eqb (comment_id y) (comment_id saved)); subst x; [|done].
    by destruct Hne.
  - intros Hin. apply in_map_iff. exists x. split; [|done].
    destruct (Nat.eqb (comment_id x) (comment_id saved)) eqn:E; [|done].
    apply Nat.eqb_eq in E. congruence.
Qed.

Lemma edit_comment_touches_one_row_witness :
  posts
    (fst (serve (edit_comment 1 1)
            (Sample.post_by (LoggedIn Sample.bob) [("text", "better")])
            Sample.db))
  = posts Sample.db ∧
  comment_id <$> comments
    (fst (serve (edit_comment 1 1)
            (Sample.post_by (LoggedIn Sample.bob) [("text", "better")])
            Sample.db))
  = comment_id <$> comments Sample.db.
Proof.
  destruct (edit_comment_touches_one_row Sample.db 1 1 Sample.c1 Sample.bob
              (Sample.post_by (LoggedIn Sample.bob) [("text", "better")])
              eq_refl eq_refl eq_refl) as (_ & _ & Hp & Hk & _).
  by split.
Defined.

Lemma post_edit_granted
    (db : DB) (pid : nat) (p : Post) (request : Request) :
  get_post_or_404 db pid = inr p →
  is_authenticated (user request) = true →
  author_eq (author p) (user request) || user_is_superuser (user request)
  = true →
  serve (PostEditView pid) request db
  = match method request with
    | GET =>
        (db, Render "blog/create.html"
               (post_form_context (mkPostForm None (Some p))))
    | POST =>
        let form := mkPostForm (Some (req_POST request)) (Some p) in
        if post_is_valid db form then
          (update_post (post_construct_instance form) db,
           Redirect (url_post_detail
                       (post_id (post_construct_instance form))))
        else (db, Render "blog/create.html" (post_form_context form))
    end.
Proof.
  intros Hget Hauth Htest. unfold serve, PostEditView.
  rewrite (guarded_granted db pid p request Hget _ Hauth Htest).
  rewrite Hget. cbn [mbind exn_bind].
  destruct (method request); [done|].
  cbv zeta. by destruct (post_is_valid db _).
Qed.

(** X10.  Whatever a permitted user (the author or a superuser) sends to
    the edit view of a post, at most the post with that key changes: no
    post is added, removed or given another key, posts with other keys
    are as they were, and the other tables are untouched. *)
Theorem post_edit_touches_one_row
    (db : DB) (pid : nat) (p : Post) (u : User) (request : Request) :
  user request = LoggedIn u →
  get_post_or_404 db pid = inr p →
  author p = user_id u ∨ is_superuser u = true →
  let db' := fst (serve (PostEditView pid) request db) in
  users db' = users db ∧
  categories db' = categories db ∧
  comments db' = comments db ∧
  post_id <$> posts db' = post_id <$> posts db ∧
  (∀ q, post_id q ≠ pid → In q (posts db') ↔ In q (posts db)) ∧
  (method request = GET → db' = db).
Proof.
  intros Hu Hget Hperm db'.
  destruct (get_post_or_404_inv _ _ _ Hget) as [Hin Hid].
  assert (Htest : author_eq (author p) (user request)
                  || user_is_superuser (user request) = true).
  { rewrite Hu. simpl. apply orb_true_iff.
    destruct Hperm as [Ha | Hs]; [left; by apply Nat.eqb_eq | by right]. }
  assert (Hauth : is_authenticated (user request) = true) by by rewrite Hu.
  subst db'. rewrite (post_edit_granted db pid p request Hget Hauth Htest).
  destruct (method request); [by repeat split|].
  cbv zeta. destruct (post_is_valid db _); [|by repeat split].
  cbn [fst].
  set (q := post_construct_instance _).
  assert (Hq : post_id q = pid) by (subst q; by cbn).
  unfold update_post. cbn [users categories posts comments].
  split; [done|]. split; [done|]. split; [done|].
  split; [apply (replace_keeps_keys post_id q)|].
  split; [|done].
  intros x Hne. split.
  - intros Hx. apply in_map_iff in Hx as (y & Hy & Hy').
    destruct (Nat.eqb (post_id y) (post_id q)); subst x; [|done].
    by destruct Hne.
  - intros Hx. apply in_map_iff. exists x. split; [|done].
    destruct (Nat.eqb (post_id x) (post_id q)) eqn:E; [|done].
    apply Nat.eqb_eq in E. congruence.
Qed.

Lemma post_edit_touches_one_row_witness :
  post_id <$> posts
    (fst (serve (PostEditView 1)
            (Sample.post_by (LoggedIn Sample.root)
               [("title", "t"); ("text", "x"); ("pub_date", "5");
                ("category", "1")]) Sample.db))
  = post_id <$> posts Sample.db.
Proof.
  apply (post_edit_touches_one_row Sample.db 1 Sample.p1 Sample.root
           (Sample.post_by (LoggedIn Sample.root)
              [("title", "t"); ("text", "x"); ("pub_date", "5");
               ("category", "1")])).
  - reflexivity.
  - reflexivity.
  - by right.
Defined.



(** X12.  An unpublished post is hidden from a superuser who is not its
    author and yet open to that superuser's changes: the detail view
    answers not-found, the edit view renders the form bound to the post
    and the delete view's POST removes it. *)
Theorem superuser_edits_what_it_cannot_see
    (now : Z) (db : DB) (pid : nat) (p : Post) (u : User)
    (q : gmap string string) :
  get_post_or_404 db pid = inr p →
  is_published p = false →
  is_superuser u = true →
  user_id u ≠ author p →
  serve (post_detail now pid) (mkRequest (LoggedIn u) GET q ∅) db
  = (db, NotFound) ∧
  serve (PostEditView pid) (mkRequest (LoggedIn u) GET q ∅) db
  = (db, Render "blog/create.html"
           (post_form_context (mkPostForm None (Some p)))) ∧
  ∀ b, serve (PostDeleteView pid) (mkRequest (LoggedIn u) POST q b) db
       = (delete_post_row p db, Redirect url_index).
Proof.
  intros Hget Hpub Hsuper Hne.
  assert (Htest : ∀ request, user request = LoggedIn u →
            author_eq (author p) (user request)
            || user_is_superuser (user request) = true).
  { intros request ->. simpl. rewrite Hsuper. apply orb_true_r. }
  split; [|split].
  - unfold serve.
    rewrite (post_detail_hidden now db pid p _ Hget Hpub); [done|].
    apply author_eq_logged_in_false. congruence.
  - by rewrite (post_edit_granted db pid p
                  (mkRequest (LoggedIn u) GET q ∅) Hget eq_refl
                  (Htest (mkRequest (LoggedIn u) GET q ∅) eq_refl)).
  - intros b. unfold serve, PostDeleteView.
    rewrite (guarded_granted db pid p (mkRequest (LoggedIn u) POST q b)
               Hget _ eq_refl
               (Htest (mkRequest (LoggedIn u) POST q b) eq_refl)).
    by rewrite Hget.
Qed.

Lemma superuser_edits_what_it_cannot_see_witness :
  serve (post_detail Sample.now 2)
    (mkRequest (LoggedIn Sample.root) GET ∅ ∅) Sample.db
  = (Sample.db, NotFound) ∧
  serve (PostEditView 2) (mkRequest (LoggedIn Sample.root) GET ∅ ∅) Sample.db
  = (Sample.db,
     Render "blog/create.html"
       (post_form_context (mkPostForm None (Some Sample.p2)))).
Proof.
  destruct (superuser_edits_what_it_cannot_see Sample.now Sample.db 2
              Sample.p2 Sample.root ∅ eq_refl eq_refl eq_refl)
    as (H1 & H2 & _); [simpl; lia|].
  by split.
Defined.

(** ** Sequences of requests *)

Lemma next_id_fresh (ids : list nat) : ¬ In (next_id ids) ids.
Proof.
  assert (Hmax : ∀ x, In x ids → (x <= foldr Nat.max 0 ids)%nat).
  { induction ids as [|y ids IH]; simpl; [done|].
    intros x [->|Hx]; [lia|]. specialize (IH x Hx). lia. }
  intros Hin. apply Hmax in Hin. unfold next_id in Hin. lia.
Qed.

Lemma NoDup_snoc_fresh (ids : list nat) :
  List.NoDup ids → List.NoDup (ids ++ [next_id ids]).
Proof.
  intros Hnd. apply NoDup_ListNoDup, NoDup_app. apply NoDup_ListNoDup in Hnd.
  split; [done|]. split; [|apply NoDup_singleton].
  intros x Hx Hx'. apply list_elem_of_singleton in Hx' as ->.
  apply list_elem_of_In in Hx. by apply next_id_fresh in Hx.
Qed.

Lemma NoDup_filter_key {A : Type} (key : A → nat) (test : A → bool)
    (l : list A) :
  List.NoDup (key <$> l) → List.NoDup (key <$> List.filter test l).
Proof.
  induction l as [|y l IH]; simpl; intros Hnd; [done|].
  apply List.NoDup_cons_iff in Hnd as [Hy Hnd].
  destruct (test y); simpl; [|by apply IH].
  apply List.NoDup_cons; [|by apply IH].
  intros Hin. apply Hy.
  apply in_map_iff in Hin as (x & Hx & Hin).
  apply filter_In in Hin as [Hin _].
  rewrite <- Hx. by apply (in_map key).
Qed.

Section Writes.

Context (db db' : DB) (Hw : Site.Write db db').

Lemma write_frame : users db' = users db ∧ categories db' = categories db.
Proof. by destruct Hw. Qed.

Lemma write_keys_unique : Site.keys_unique db → Site.keys_unique db'.
Proof.
  intros [Hp Hc]. unfold Site.keys_unique.
  destruct Hw as [ | now p | p q Hin Hid | p | now c Hin | c c' Hin Hid Hpost | c ];
    cbn [posts comments insert_post update_post delete_post_row
           insert_comment update_comment delete_comment_row].
  - done.
  - split; [|done]. rewrite fmap_app. by apply NoDup_snoc_fresh.
  - split; [|done]. by rewrite (replace_keeps_keys post_id q).
  - split; by apply NoDup_filter_key.
  - split; [done|]. rewrite fmap_app. by apply NoDup_snoc_fresh.
  - split; [done|]. by rewrite (replace_keeps_keys comment_id c').
  - split; [done|]. by apply NoDup_filter_key.
Qed.

Lemma write_comments_attached :
  Site.comments_attached db → Site.comments_attached db'.
Proof.
  intros Hatt. unfold Site.comments_attached.
  destruct Hw as [ | now p | p q Hin Hid | p | now c Hin | c c' Hin Hid Hpost | c ];
    cbn [posts comments insert_post update_post delete_post_row
           insert_comment update_comment delete_comment_row].
  - done.
  - intros c Hc. rewrite fmap_app. apply in_or_app. left. by apply Hatt.
  - intros c Hc. rewrite (replace_keeps_keys post_id q). by apply Hatt.
  - intros c Hc. apply filter_In in Hc as [Hc Hne].
    apply negb_true_iff, Nat.eqb_neq in Hne.
    apply Hatt in Hc. apply in_map_iff in Hc as (x & Hx & Hin).
    apply in_map_iff. exists x. split; [done|].
    apply filter_In. split; [done|].
    apply negb_true_iff, Nat.eqb_neq. congruence.
  - intros x Hx. apply in_app_or in Hx as [Hx | [<- | []]]; [by apply Hatt|].
    exact Hin.
  - intros x Hx. apply in_map_iff in Hx as (y & Hy & Hin').
    destruct (Nat.eqb (comment_id y) (comment_id c')); subst x;
      [rewrite Hpost|]; by apply Hatt.
  - intros x Hx. apply filter_In in Hx as [Hx _]. by apply Hatt.
Qed.

End Writes.

Ltac write_nothing := simpl; apply Site.write_nothing.

Lemma comment_views_write (now : Z) (pid : nat) (request : Request) (db : DB) :
  Site.Write db (fst (serve (post_detail now pid) request db)) ∧
  Site.Write db (fst (serve (add_comment now pid) request db)).
Proof.
  assert (Hins : ∀ p k t a z,
            get_post_or_404 db pid = inr p →
            Site.Write db
              (insert_comment now (mkComment k t (post_id p) a z) db)).
  { intros p k t a z Hget. apply Site.write_insert_comment. cbn.
    destruct (get_post_or_404_inv _ _ _ Hget) as [Hin _].
    by apply (in_map post_id). }
  split.
  - unfold serve, post_detail.
    destruct (get_post_or_404 db pid) as [[]|p] eqn:Hget;
      cbn [mbind exn_bind mret exn_ret]; try write_nothing.
    destruct (negb (is_published p) && _); [write_nothing|].
    destruct (method request); [write_nothing|].
    destruct (comment_is_valid _); [|write_nothing].
    destruct (set_author (user request)) as [[]|a]; try write_nothing.
    cbn [fst]. by apply Hins.
  - unfold serve, add_comment, login_required.
    destruct (is_authenticated (user request)); [|write_nothing].
    destruct (get_post_or_404 db pid) as [[]|p] eqn:Hget;
      cbn [mbind exn_bind mret exn_ret]; try write_nothing.
    destruct (comment_is_valid _); [|write_nothing].
    destruct (set_author (user request)) as [[]|a]; try write_nothing.
    cbn [fst]. by apply Hins.
Qed.

Lemma comment_change_views_write (pid cid : nat) (request : Request) (db : DB) :
  Site.Write db (fst (serve (edit_comment pid cid) request db)) ∧
  Site.Write db (fst (serve (delete_comment pid cid) request db)).
Proof.
  split.
  - unfold serve, edit_comment, login_required.
    destruct (is_authenticated (user request)); [|write_nothing].
    destruct (get_object_or_404 (comments db) _) as [[]|c] eqn:Hget;
      cbn [mbind exn_bind mret exn_ret]; try write_nothing.
    destruct (negb _); [write_nothing|].
    destruct (comment_is_valid _); [|write_nothing].
    cbn [fst]. apply Site.write_update_comment with c; [|done|done].
    by destruct (get_object_or_404_inv _ _ _ Hget).
  - unfold serve, delete_comment, login_required.
    destruct (is_authenticated (user request)); [|write_nothing].
    destruct (get_object_or_404 (comments db) _) as [[]|c] eqn:Hget;
      cbn [mbind exn_bind mret exn_ret]; try write_nothing.
    destruct (negb _); [write_nothing|].
    destruct (method request); [write_nothing|].
    cbn [fst]. apply Site.write_delete_comment.
Qed.

Lemma post_views_write (now : Z) (pid : nat) (request : Request) (db : DB) :
  Site.Write db (fst (serve (PostCreateView now) request db)) ∧
  Site.Write db (fst (serve (PostEditView pid) request db)) ∧
  Site.Write db (fst (serve (PostDeleteView pid) request db)).
Proof.
  split; [|split].
  - unfold serve, PostCreateView, login_required_dispatch,
      access_handle_no_permission, post_create_form_valid.
    destruct (is_authenticated (user request)); cbn [negb];
      [|write_nothing].
    destruct (method request); [write_nothing|].
    destruct (post_is_valid db _); [|write_nothing].
    destruct (set_author (user request)) as [[]|a];
      cbn [mbind exn_bind mret exn_ret]; try write_nothing.
    cbn [fst]. apply Site.write_insert_post.
  - unfold serve, PostEditView, login_required_dispatch,
      user_passes_test_dispatch, test_func, only_author_handle_no_permission.
    destruct (get_post_or_404 db pid) as [[]|p] eqn:Hget;
      destruct (is_authenticated (user request));
      cbn [negb mbind exn_bind mret exn_ret]; try write_nothing.
    destruct (negb _); [write_nothing|].
    destruct (method request); [write_nothing|].
    destruct (post_is_valid db _); [|write_nothing].
    cbn [fst]. apply Site.write_update_post with p; [|done].
    by destruct (get_post_or_404_inv _ _ _ Hget).
  - unfold serve, PostDeleteView, login_required_dispatch,
      user_passes_test_dispatch, test_func, only_author_handle_no_permission.
    destruct (get_post_or_404 db pid) as [[]|p] eqn:Hget;
      destruct (is_authenticated (user request));
      cbn [negb mbind exn_bind mret exn_ret]; try write_nothing.
    destruct (negb _); [write_nothing|].
    destruct (method request); [write_nothing|].
    cbn [fst]. apply Site.write_delete_post.
Qed.

Lemma listing_views_read_only (now : Z) (category_slug : string)
    (request : Request) (db : DB) :
  fst (serve (index now) request db) = db ∧
  fst (serve (category_posts now category_slug) request db) = db.
Proof.
  split.
  - unfold serve, index. by rewrite paginate_queryset_ok.
  - unfold serve, category_posts.
    destruct (get_object_or_404 (categories db) _) as [[]|c];
      cbn [mbind exn_bind]; try done.
    by rewrite paginate_queryset_ok.
Qed.

Lemma step_write (db : DB) (e : Site.Event) : Site.Write db (Site.step db e).
Proof.
  unfold Site.step. destruct e as [now h request]. cbn.
  destruct h as [ | pid | category_slug | | pid | pid | pid | pid cid | pid cid ];
    cbn [Site.view_of].
  - destruct (listing_views_read_only now "" request db) as [-> _].
    apply Site.write_nothing.
  - apply comment_views_write.
  - destruct (listing_views_read_only now category_slug request db) as [_ ->].
    apply Site.write_nothing.
  - apply (post_views_write now 0).
  - apply (post_views_write now pid).
  - apply (post_views_write now pid).
  - apply comment_views_write.
  - apply comment_change_views_write.
  - apply comment_change_views_write.
Qed.

Lemma run_snoc_invariant (P : DB → Prop) :
  (∀ db db', Site.Write db db' → P db → P db') →
  ∀ events db, P db → P (Site.run events db).
Proof.
  intros Hstep events. unfold Site.run.
  induction events as [|e events IH]; intros db Hdb; [done|].
  simpl. apply IH. apply (Hstep db); [apply step_write | exact Hdb].
Qed.

(** X13.  Primary keys stay unique: if no two stored posts and no two
    stored comments share a key, the same holds after any sequence of
    requests served by the views. *)
Theorem run_keeps_keys_unique (events : list Site.Event) (db : DB) :
  Site.keys_unique db → Site.keys_unique (Site.run events db).
Proof. apply run_snoc_invariant. apply write_keys_unique. Qed.

Lemma run_keeps_keys_unique_witness :
  Site.keys_unique
    (Site.run
       [Site.mkEvent 1001 (Site.h_add_comment 1)
          (Sample.post_by (LoggedIn Sample.bob) [("text", "again")]);
        Site.mkEvent 1002 (Site.h_delete_comment 1 2)
          (Sample.post_by (LoggedIn Sample.alice) []);
        Site.mkEvent 1003 Site.h_post_create
          (Sample.post_by (LoggedIn Sample.alice)
             [("title", "t"); ("text", "x"); ("pub_date", "5");
              ("category", "1")])]
       Sample.db).
Proof.
  apply run_keeps_keys_unique. split; vm_compute;
    repeat constructor; simpl; intuition discriminate.
Defined.

(** X14.  No comment is orphaned: if every stored comment references a
    stored post, the same holds after any sequence of requests served by
    the views, post deletions included. *)
Theorem run_keeps_comments_attached (events : list Site.Event) (db : DB) :
  Site.comments_attached db → Site.comments_attached (Site.run events db).
Proof. apply run_snoc_invariant. apply write_comments_attached. Qed.

Lemma run_keeps_comments_attached_witness :
  Site.comments_attached
    (Site.run
       [Site.mkEvent 1001 (Site.h_add_comment 3)
          (Sample.post_by (LoggedIn Sample.bob) [("text", "again")]);
        Site.mkEvent 1002 (Site.h_post_delete 3)
          (Sample.post_by (LoggedIn Sample.root) [])]
       Sample.db).
Proof.
  apply run_keeps_comments_attached.
  intros c Hc. vm_compute in Hc. vm_compute.
  destruct Hc as [<- | [<- | [<- | []]]]; simpl; tauto.
Defined.

(** X15.  The nine views that serve posts and comments never write to
    the user or the category table: after any sequence of requests to
    them both tables are what they were.  ([UserProfileEditView], which
    saves [request.user], is not one of them.) *)
Theorem run_keeps_users_and_categories (events : list Site.Event) (db : DB) :
  users (Site.run events db) = users db ∧
  categories (Site.run events db) = categories db.
Proof.
  apply (run_snoc_invariant
           (fun d => users d = users db ∧ categories d = categories db));
    [|done].
  intros d d' Hw [Hu Hc].
  destruct (write_frame d d' Hw) as [-> ->]. done.
Qed.

(** *** Requests that change nothing *)

Lemma get_changes_nothing (now : Z) (h : Site.Handler) (request : Request)
    (db : DB) :
  method request = GET →
  fst (serve (Site.view_of now h) request db) = db.
Proof.
  intros Hm.
  assert (HP : req_POST request = ∅) by (unfold req_POST; by rewrite Hm).
  destruct h as [ | pid | category_slug | | pid | pid | pid | pid cid | pid cid ];
    cbn [Site.view_of].
  - apply (listing_views_read_only now "").
  - unfold serve, post_detail.
    destruct (get_post_or_404 db pid) as [[]|p];
      cbn [mbind exn_bind mret exn_ret]; try done.
    destruct (negb (is_published p) && _); [done|]. by rewrite Hm.
  - apply listing_views_read_only.
  - unfold serve, PostCreateView, login_required_dispatch,
      access_handle_no_permission.
    destruct (is_authenticated (user request)); cbn [negb]; [|done].
    by rewrite Hm.
  - unfold serve, PostEditView, login_required_dispatch,
      user_passes_test_dispatch, test_func, only_author_handle_no_permission.
    destruct (get_post_or_404 db pid) as [[]|p];
      destruct (is_authenticated (user request));
      cbn [negb mbind exn_bind mret exn_ret]; try done.
    destruct (negb _); [done|]. by rewrite Hm.
  - unfold serve, PostDeleteView, login_required_dispatch,
      user_passes_test_dispatch, test_func, only_author_handle_no_permission.
    destruct (get_post_or_404 db pid) as [[]|p];
      destruct (is_authenticated (user request));
      cbn [negb mbind exn_bind mret exn_ret]; try done.
    destruct (negb _); [done|]. by rewrite Hm.
  - unfold serve, add_comment, login_required.
    destruct (is_authenticated (user request)); [|done].
    destruct (get_post_or_404 db pid) as [[]|p];
      cbn [mbind exn_bind mret exn_ret]; try done.
    rewrite HP.
    assert (comment_is_valid (mkCommentForm (Some ∅) None) = false) as ->
      by reflexivity.
    done.
  - unfold serve, edit_comment, login_required.
    destruct (is_authenticated (user request)); [|done].
    destruct (get_object_or_404 (comments db) _) as [[]|c];
      cbn [mbind exn_bind mret exn_ret]; try done.
    destruct (negb _); [done|].
    unfold POST_or_None. rewrite HP.
    rewrite bool_decide_eq_true_2 by done. done.
  - unfold serve, delete_comment, login_required.
    destruct (is_authenticated (user request)); [|done].
    destruct (get_object_or_404 (comments db) _) as [[]|c];
      cbn [mbind exn_bind mret exn_ret]; try done.
    destruct (negb _); [done|]. by rewrite Hm.
Qed.

Lemma anonymous_step_changes_nothing (now : Z) (h : Site.Handler)
    (request : Request) (db : DB) :
  user request = AnonymousUser →
  fst (serve (Site.view_of now h) request db) = db.
Proof.
  intros Hanon.
  destruct h as [ | pid | category_slug | | pid | pid | pid | pid cid | pid cid ];
    cbn [Site.view_of].
  - apply (listing_views_read_only now "").
  - apply (anonymous_changes_nothing now db request Hanon pid 0).
  - apply listing_views_read_only.
  - apply (anonymous_changes_nothing now db request Hanon 0 0).
  - apply (anonymous_changes_nothing now db request Hanon pid 0).
  - apply (anonymous_changes_nothing now db request Hanon pid 0).
  - apply (anonymous_changes_nothing now db request Hanon pid 0).
  - apply (anonymous_changes_nothing now db request Hanon pid cid).
  - apply (anonymous_changes_nothing now db request Hanon pid cid).
Qed.

(** X16.  A sequence of GET and POST requests to the nine views that
    serve posts and comments, each of which is a GET or comes from the
    anonymous user, leaves the store exactly as it was, whichever of the
    views they reach and whatever they carry. *)
Theorem reads_and_anonymous_requests_write_nothing
    (events : list Site.Event) (db : DB) :
  (∀ e, In e events →
        method (Site.request e) = GET
        ∨ user (Site.request e) = AnonymousUser) →
  Site.run events db = db.
Proof.
  unfold Site.run. revert db.
  induction events as [|e events IH]; intros db Hall; [done|].
  simpl. assert (Site.step db e = db) as ->.
  { unfold Site.step.
    destruct (Hall e (or_introl eq_refl)) as [Hm | Hanon].
    - by apply get_changes_nothing.
    - by apply anonymous_step_changes_nothing. }
  apply IH. intros e' He'. apply Hall. by right.
Qed.

Lemma reads_and_anonymous_requests_write_nothing_witness :
  Site.run
    [Site.mkEvent 1001 (Site.h_add_comment 1)
       (Sample.post_by AnonymousUser [("text", "hi")]);
     Site.mkEvent 1002 (Site.h_post_detail 1)
       (Sample.post_by AnonymousUser [("text", "hi")]);
     Site.mkEvent 1003 (Site.h_post_delete 1)
       (Sample.get_by (LoggedIn Sample.alice));
     Site.mkEvent 1004 (Site.h_add_comment 1)
       (mkRequest (LoggedIn Sample.bob) GET ∅ {[ "text" := "hi" ]})]
    Sample.db
  = Sample.db.
Proof.
  apply reads_and_anonymous_requests_write_nothing.
  intros e [<- | [<- | [<- | [<- | []]]]]; simpl; tauto.
Defined.

(** ** The profile page *)

Lemma insert_by_pub_date_perm (x : Post * nat) (l : list (Post * nat)) :
  Permutation (insert_by_pub_date x l) (x :: l).
Proof.
  induction l as [|y l IH]; simpl; [done|].
  destruct (pub_date y.1 <? pub_date x.1); [done|].
  rewrite IH. apply perm_swap.
Qed.

Lemma insert_by_pub_date_sorted (x : Post * nat) (l : list (Post * nat)) :
  Sorted ListView.newer_or_equal l → Sorted ListView.newer_or_equal (insert_by_pub_date x l).
Proof.
  induction l as [|y l IH]; simpl; intros Hs.
  - by repeat constructor.
  - destruct (pub_date y.1 <? pub_date x.1) eqn:E.
    + constructor; [done|]. constructor. unfold ListView.newer_or_equal. lia.
    + apply Sorted_inv in Hs as [Hs Hhd].
      constructor; [by apply IH|].
      destruct l as [|z l]; simpl.
      * constructor. unfold ListView.newer_or_equal. lia.
      * destruct (pub_date z.1 <? pub_date x.1).
        -- constructor. unfold ListView.newer_or_equal. lia.
        -- constructor. by apply HdRel_inv in Hhd.
Qed.

Lemma order_by_pub_date_desc_sorted_perm (l : list (Post * nat)) :
  Sorted ListView.newer_or_equal (order_by_pub_date_desc l) ∧
  Permutation (order_by_pub_date_desc l) l.
Proof.
  unfold order_by_pub_date_desc.
  induction l as [|x l [IHs IHp]]; simpl; [by split; constructor|].
  split; [by apply insert_by_pub_date_sorted|].
  rewrite insert_by_pub_date_perm. by constructor.
Qed.

(** X17.  With primary keys unique, the profile queryset of a user lists
    every stored post that user wrote, published or not and whatever its
    publish time, once each, with the number of comments on it, newest
    publish time first; it lists nothing else. *)
Theorem profile_queryset_is_all_posts_of_user (user : User) (db : DB) :
  List.NoDup (post_id <$> posts db) →
  (∀ p n, In (p, n) (profile_get_queryset user db) ↔
          In p (posts db) ∧
          author p = user_id user ∧
          n = List.length (post_comments db p)) ∧
  Permutation (fst <$> profile_get_queryset user db)
    (List.filter (fun p => Nat.eqb (author p) (user_id user)) (posts db)) ∧
  Sorted ListView.newer_or_equal (profile_get_queryset user db).
Proof.
  intros Hnd. unfold profile_get_queryset.
  set (mine := List.filter _ (posts db)).
  assert (Hmine : List.NoDup (post_id <$> mine)) by by apply NoDup_filter_keys.
  destruct (order_by_pub_date_desc_sorted_perm
              (PostQuerySet.with_comment_count db mine)) as [Hs Hp].
  split; [|split; [|exact Hs]].
  - intros p n. rewrite order_by_pub_date_desc_In. split.
    + intros Hin. apply with_comment_count_In in Hin as [Hin ->]; [|done].
      apply filter_In in Hin as [Hin Ha]. by apply Nat.eqb_eq in Ha.
    + intros (Hin & Ha & ->).
      unfold PostQuerySet.with_comment_count. apply in_map_iff.
      exists p. split.
      * f_equal. apply count_group_present; [done|].
        apply filter_In. split; [done|]. by apply Nat.eqb_eq.
      * apply filter_In. split; [done|]. by apply Nat.eqb_eq.
  - rewrite Hp. unfold PostQuerySet.with_comment_count.
    cbn [list_fmap fmap]. rewrite <- list_fmap_compose.
    by rewrite (list_fmap_ext _ id mine), list_fmap_id.
Qed.

Lemma profile_queryset_is_all_posts_of_user_witness :
  In (Sample.p2, 0%nat) (profile_get_queryset Sample.alice Sample.db).
Proof.
  assert (Hnd : List.NoDup (post_id <$> posts Sample.db)).
  { vm_compute. repeat constructor; simpl; intuition discriminate. }
  destruct (profile_queryset_is_all_posts_of_user Sample.alice Sample.db Hnd)
    as [H _].
  apply H. split; [simpl; tauto|]. split; reflexivity.
Defined.

Section ListViewPages.

Context {A : Type} (queryset : list A).

Local Abbreviation paginator := (Paginator.new queryset POSTS_PER_PAGE).
Local Abbreviation last_page := (Paginator.num_pages paginator).
Local Abbreviation page_of n :=
  (Paginator.mkPage (take 10 (drop (Z.to_nat ((n - 1) * 10)) queryset))
     n paginator).

Lemma page_in_range (n : Z) :
  1 <= n <= last_page →
  Paginator.page paginator (Python.PyInt n) = inr (page_of n).
Proof.
  intros Hr. unfold Paginator.page.
  rewrite (validate_number_int queryset n Hr).
  f_equal. f_equal. apply (slice_page queryset n). lia.
Qed.

Lemma page_out_of_range (n : Z) :
  n < 1 ∨ last_page < n →
  Paginator.page paginator (Python.PyInt n) = inl Paginator.EmptyPage.
Proof.
  intros Hr. unfold Paginator.page, Paginator.validate_number.
  cbn [Python.int].
  destruct (n <? 1) eqn:E1; [done|].
  destruct (n >? last_page) eqn:E2; [done|]. lia.
Qed.

Lemma list_view_page_number (request : Request) (n : Z) :
  Python.int (ListView.requested_page request) = Some n →
  ListView.paginate_queryset queryset POSTS_PER_PAGE request
  = if (1 <=? n) && (n <=? last_page) then inr (page_of n) else inl Http404.
Proof.
  intros Hn. unfold ListView.paginate_queryset. rewrite Hn.
  cbn [mbind exn_bind].
  destruct ((1 <=? n) && (n <=? last_page)) eqn:E.
  - rewrite page_in_range; [done | lia].
  - rewrite page_out_of_range; [done | lia].
Qed.


End ListViewPages.

(** X18.  The profile page's pagination answers not-found where the
    helper of the other listings clamps.  An absent or empty [page]
    parameter gives page 1 and the word [last] the last page; any other
    text that is not an integer, and any integer below 1 or beyond the
    last page, raises [Http404]; an integer within range gives that
    page. *)
Theorem profile_pagination_rejects_bad_pages {A : Type}
    (queryset : list A) (request : Request) :
  let paginator := Paginator.new queryset POSTS_PER_PAGE in
  let last := Paginator.num_pages paginator in
  let page_of n :=
    Paginator.mkPage (take 10 (drop (Z.to_nat ((n - 1) * 10)) queryset))
      n paginator in
  let result := ListView.paginate_queryset queryset POSTS_PER_PAGE request in
  (req_GET request !! "page" = None ∨ req_GET request !! "page" = Some "" →
   result = inr (page_of 1)) ∧
  (req_GET request !! "page" = Some "last" → result = inr (page_of last)) ∧
  (∀ s, req_GET request !! "page" = Some s → s ≠ "" → s ≠ "last" →
        Python.int_of_str s = None → result = inl Http404) ∧
  (∀ s n, req_GET request !! "page" = Some s →
          Python.int_of_str s = Some n → n < 1 ∨ last < n →
          result = inl Http404) ∧
  (∀ s n, req_GET request !! "page" = Some s →
          Python.int_of_str s = Some n → 1 <= n <= last →
          result = inr (page_of n)).
Proof.
  intros paginator last page_of result.
  pose proof (num_pages_pos queryset) as Hpos.
  assert (Hstr : ∀ s n, req_GET request !! "page" = Some s →
                        Python.int_of_str s = Some n →
                        Python.int (ListView.requested_page request) = Some n).
  { intros s n Hs Hn. unfold ListView.requested_page, Python.get. rewrite Hs.
    destruct (String.eqb s "") eqn:E; [|done].
    apply String.eqb_eq in E. subst s. vm_compute in Hn. discriminate. }
  repeat split.
  - intros Habs.
    assert (Hone : Python.int (ListView.requested_page request) = Some 1).
    { unfold ListView.requested_page, Python.get.
      by destruct Habs as [-> | ->]. }
    subst result. rewrite (list_view_page_number queryset request 1 Hone).
    destruct (1 <=? 1) eqn:E1; [|lia].
    destruct (1 <=? Paginator.num_pages (Paginator.new queryset POSTS_PER_PAGE))
      eqn:E2; [done | lia].
  - intros Hlast. subst result.
    unfold ListView.paginate_queryset, ListView.requested_page, Python.get.
    rewrite Hlast. cbn [String.eqb Ascii.eqb Bool.eqb Python.int].
    assert (Python.int_of_str "last" = None) as -> by reflexivity.
    cbn [mbind exn_bind]. rewrite page_in_range; [done | lia].
  - intros s Hs Hne Hnl Hint. subst result.
    unfold ListView.paginate_queryset, ListView.requested_page, Python.get.
    rewrite Hs.
    destruct (String.eqb s "") eqn:E; [by apply String.eqb_eq in E|].
    cbn [Python.int]. rewrite Hint.
    destruct (String.eqb s "last") eqn:E'; [by apply String.eqb_eq in E'|].
    done.
  - intros s n Hs Hn Hout. subst result.
    rewrite (list_view_page_number queryset request n (Hstr s n Hs Hn)).
    destruct ((1 <=? n) && _) eqn:E; [|done]. subst last paginator. lia.
  - intros s n Hs Hn Hin. subst result.
    rewrite (list_view_page_number queryset request n (Hstr s n Hs Hn)).
    destruct ((1 <=? n) && _) eqn:E; [done|]. subst last paginator. lia.
Qed.


(** ** Writing, then reading *)

(** X20.  A comment that is added is shown.  A logged-in user's valid
    comment form sent to [add_comment] for a stored post appends one
    comment to the comment table, with a key no stored comment has, on
    that post, by that user, at the arrival time; the posts are
    untouched; and the next GET of the post's detail page, by any viewer
    when the post is published, lists the post's earlier comments followed
    by the new one. *)
Theorem added_comment_is_shown
    (now now' : Z) (db : DB) (pid : nat) (p : Post) (u : User)
    (request : Request) :
  user request = LoggedIn u →
  get_post_or_404 db pid = inr p →
  comment_is_valid (mkCommentForm (Some (req_POST request)) None) = true →
  ∃ created,
    ¬ In (comment_id created) (comment_id <$> comments db) ∧
    comment_post created = pid ∧
    comment_author created = user_id u ∧
    comment_created_at created = now ∧
    let db' := fst (serve (add_comment now pid) request db) in
    comments db' = comments db ++ [created] ∧
    posts db' = posts db ∧
    (is_published p = true →
     ∀ viewer q,
       serve (post_detail now' pid) (mkRequest viewer GET q ∅) db'
       = (db', Render "blog/detail.html"
                 (detail_context p (post_comments db p ++ [created])
                    (mkCommentForm None None)))).
Proof.
  intros Hu Hget Hvalid.
  destruct (get_post_or_404_inv _ _ _ Hget) as [Hin Hid].
  set (form := mkCommentForm (Some (req_POST request)) None) in *.
  set (created :=
         mkComment (next_id (comment_id <$> comments db))
           (comment_text (comment_save_commit_false form)) pid (user_id u) now).
  assert (Hdb' : fst (serve (add_comment now pid) request db)
                 = insert_comment now created db).
  { subst created. unfold serve, add_comment, login_required.
    rewrite Hu, Hget. cbn [is_authenticated mbind exn_bind mret exn_ret].
    fold form. rewrite Hvalid.
    cbn [set_author mbind exn_bind mret exn_ret fst].
    unfold insert_comment. cbn [comment_text comment_post comment_author].
    by rewrite Hid. }
  exists created.
  split; [apply next_id_fresh|].
  split; [done|]. split; [done|]. split; [done|].
  cbv zeta. rewrite Hdb'.
  split; [done|]. split; [done|].
  intros Hpub viewer q.
  assert (Hget' : get_post_or_404 (insert_comment now created db) pid = inr p)
    by exact Hget.
  unfold serve.
  rewrite (post_detail_shown_get now' _ pid p _ Hget'); [|by left|done].
  do 3 f_equal. unfold post_comments, insert_comment. cbn [comments].
  rewrite List.filter_app. f_equal. cbn.
  by rewrite Hid, Nat.eqb_refl.
Qed.

Lemma added_comment_is_shown_witness :
  ∃ created,
    comment_post created = 3%nat ∧
    comment_author created = user_id Sample.bob ∧
    comments
      (fst (serve (add_comment 1005 3)
              (Sample.post_by (LoggedIn Sample.bob) [("text", "because")])
              Sample.db))
    = comments Sample.db ++ [created].
Proof.
  destruct (added_comment_is_shown 1005 1006 Sample.db 3 Sample.p3 Sample.bob
              (Sample.post_by (LoggedIn Sample.bob) [("text", "because")])
              eq_refl eq_refl eq_refl)
    as (created & _ & Hp & Ha & _ & Hc & _).
  exists created. by repeat split.
Defined.
